(** * Habitat documentation patchers

    A shallow embedding of the two batch editors of the repository,
    [add-text-size-control.py] and [add-dark-mode-toggle.py], together with
    the size-adjustment logic of the widget that the first one injects.

    Layout: the text and regular-expression primitives the scripts rely on,
    the file-system and console effects, one module per script, the widget
    logic, and then the properties. *)

From Stdlib Require Import List NArith Ascii String Lia Bool Sorted.
From stdpp Require Import gmap.
Import ListNotations.

(** ** Text

    A Python [str] is a sequence of code points.  Every literal of the two
    scripts is ASCII, file contents are arbitrary. *)

Abbreviation str := (list N) (only parsing).

(** [lit] reads a literal.  The snippets are full of double quotes, which are
    written as backquotes inside the literals below (the scripts contain no
    backquote); [lit] turns each backquote into code point 34. *)
Definition lit (s : string) : str :=
  map (fun a => if Ascii.eqb a "`"%char then 34%N else N_of_ascii a)
      (list_ascii_of_string s).

(** [str.isspace] on one code point: the class that [\s] denotes in a
    [str] pattern. *)
Definition is_space (c : N) : bool :=
  ((9 <=? c) && (c <=? 13) || (28 <=? c) && (c <=? 32)
   || (c =? 133) || (c =? 160) || (c =? 5760)
   || (8192 <=? c) && (c <=? 8202)
   || (c =? 8232) || (c =? 8233) || (c =? 8239) || (c =? 8287)
   || (c =? 12288))%N.

(** [s.startswith(m)] *)
Fixpoint starts_with (m s : str) : bool :=
  match m, s with
  | [], _ => true
  | _ :: _, [] => false
  | a :: m', b :: s' => (a =? b)%N && starts_with m' s'
  end.

(** [s.removeprefix(m)], failing when [m] is not a prefix. *)
Fixpoint strip_prefix (m s : str) : option str :=
  match m, s with
  | [], _ => Some s
  | _ :: _, [] => None
  | a :: m', b :: s' => if (a =? b)%N then strip_prefix m' s' else None
  end.

(** [m in s] *)
Fixpoint contains (m s : str) : bool :=
  starts_with m s ||
  match s with
  | [] => false
  | _ :: s' => contains m s'
  end.

(** Number of positions of [s] at which [m] occurs. *)
Fixpoint occurrences (m s : str) : nat :=
  match s with
  | [] => 0
  | _ :: s' => (if starts_with m s then 1 else 0) + occurrences m s'
  end.

Definition str_eqb (a b : str) : bool :=
  (length a =? length b) && starts_with a b.

Definition ends_with (m s : str) : bool := starts_with (rev m) (rev s).

(** Two texts agree as far as both go. *)
Definition compat (a b : str) : bool := starts_with a b || starts_with b a.

(** No occurrence of [m] can run over a junction that is followed by the
    text [k]: no proper suffix of [m] agrees with [k]. *)
Definition clear_right (m k : str) : bool :=
  forallb (fun n => negb (compat (skipn n m) k)) (seq 1 (length m - 1)).

(** No occurrence of [m] can run over a junction that is preceded by the
    text [k]: the same, read backwards. *)
Definition clear_left (m k : str) : bool := clear_right (rev m) (rev k).

(** ** Regular expressions

    The four patterns of the scripts are sequences of literal text and
    [\s*], with capture groups that are not nested.  [Re] implements
    [re.search] and [re.sub] for that fragment: leftmost match, greedy
    repetition with backtracking. *)
Module Re.

Inductive atom :=
| Lit (l : str)      (* literal text, escapes resolved *)
| Spaces.            (* \s* *)

Inductive node :=
| Plain (a : atom)
| Group (g : list atom).

Definition regex := list node.

Definition atoms (p : regex) : list atom :=
  flat_map (fun n => match n with Plain a => [a] | Group g => g end) p.

(** [\s*] followed by the continuation [k]: take white space as long as
    possible, give it back one code point at a time while [k] fails. *)
Fixpoint greedy_spaces {A} (k : str -> option A) (s : str) : option (str * A) :=
  let stop := option_map (pair []) (k s) in
  match s with
  | c :: s' =>
      if is_space c then
        match greedy_spaces k s' with
        | Some (w, a) => Some (c :: w, a)
        | None => stop
        end
      else stop
  | [] => stop
  end.

(** Match a sequence of atoms at the start of [s]: the text each atom
    consumed, and what is left. *)
Fixpoint match_atoms (p : list atom) (s : str) : option (list str * str) :=
  match p with
  | [] => Some ([], s)
  | Lit l :: p' =>
      match strip_prefix l s with
      | Some s' =>
          match match_atoms p' s' with
          | Some (segs, r) => Some (l :: segs, r)
          | None => None
          end
      | None => None
      end
  | Spaces :: p' =>
      match greedy_spaces (match_atoms p') s with
      | Some (w, (segs, r)) => Some (w :: segs, r)
      | None => None
      end
  end.

(** Every [\s*] of the sequence is followed by literal text that starts
    with something other than white space: how much the repetition takes
    is then forced. *)
Fixpoint tight (p : list atom) : bool :=
  match p with
  | [] => true
  | Lit _ :: p' => tight p'
  | Spaces :: p' =>
      match p' with
      | Lit (c :: _) :: _ => negb (is_space c) && tight p'
      | _ => false
      end
  end.

(** The text of each capture group, from the text of each atom. *)
Fixpoint captures (p : regex) (segs : list str) : list str :=
  match p with
  | [] => []
  | Plain _ :: p' => captures p' (skipn 1 segs)
  | Group g :: p' =>
      concat (firstn (length g) segs) :: captures p' (skipn (length g) segs)
  end.

(** A match object: [m.group(0)] and [m.groups()]. *)
Record match_obj := { whole : str; groups : list str }.

Definition match_at (p : regex) (s : str) : option (match_obj * str) :=
  match match_atoms (atoms p) s with
  | Some (segs, r) =>
      Some ({| whole := concat segs; groups := captures p segs |}, r)
  | None => None
  end.

(** [re.search]: the text before the leftmost match, the match, the text
    after it. *)
Fixpoint search (p : regex) (s : str) : option (str * match_obj * str) :=
  match match_at p s with
  | Some (m, r) => Some ([], m, r)
  | None =>
      match s with
      | [] => None
      | c :: s' =>
          match search p s' with
          | Some (pre, m, r) => Some (c :: pre, m, r)
          | None => None
          end
      end
  end.

(** A replacement template: text and group references [\1], [\2]. *)
Inductive piece :=
| Text (t : str)
| Ref (n : nat).

Definition group (m : match_obj) (n : nat) : str :=
  match n with
  | 0 => whole m
  | S i => nth i (groups m) []
  end.

Definition expand (repl : list piece) (m : match_obj) : str :=
  flat_map (fun pc => match pc with Text t => t | Ref n => group m n end) repl.

(** The loop of [re.sub].  [limit] is the number of replacements still
    allowed ([None]: no bound).  After an empty match one code point is
    copied before the search resumes.  Every round consumes at least one
    code point of [s], so [S (length s)] rounds are enough. *)
Fixpoint sub_loop (fuel : nat) (p : regex) (repl : list piece)
    (limit : option nat) (s : str) : str :=
  match fuel with
  | 0 => s
  | S fuel' =>
      match limit with
      | Some 0 => s
      | _ =>
          match search p s with
          | None => s
          | Some (pre, m, r) =>
              let limit' := option_map pred limit in
              pre ++ expand repl m ++
                match whole m, r with
                | [], [] => []
                | [], c :: r' => c :: sub_loop fuel' p repl limit' r'
                | _ :: _, _ => sub_loop fuel' p repl limit' r
                end
          end
      end
  end.

(** [re.sub(pattern, repl, string, count)]; [count = 0] replaces every
    occurrence. *)
Definition sub (p : regex) (repl : list piece) (s : str) (count : nat) : str :=
  sub_loop (S (length s)) p repl
           (match count with 0 => None | S _ => Some count end) s.

End Re.

(** ** Files and console

    The scripts read and rewrite files below one directory and print one
    line per event.  A world is the content of every file of the tree and
    the lines printed so far; an action may fail (a missing file makes
    [open] raise). *)
Module Sys.

(** A path below the scanned directory, component by component. *)
Abbreviation path := (list (list N)) (only parsing).

Inductive glyph := Check_mark | Cross_mark.

Inductive line :=
| Status (g : glyph) (f : path) (msg : str)   (* "  <glyph> <path> - <msg>" *)
| Found (n : nat)                             (* "Found <n> HTML files" *)
| Blank
| Updated (n : nat)                           (* "Updated: <n>" *)
| Skipped (n : nat).                          (* "Skipped: <n>" *)

Record world := World { files : gmap (list (list N)) (list N); console : list line }.

Definition IO (A : Type) : Type := world -> option (A * world).

#[export] Instance IO_ret : MRet IO := fun _ a w => Some (a, w).
#[export] Instance IO_bind : MBind IO := fun _ _ k m w =>
  match m w with
  | Some (a, w') => k a w'
  | None => None
  end.

(** [open(f, 'r').read()] *)
Definition read_file (f : path) : IO str :=
  fun w => match files w !! f with
           | Some content => Some (content, w)
           | None => None
           end.

(** [open(f, 'w').write(content)] *)
Definition write_file (f : path) (content : str) : IO unit :=
  fun w => Some (tt, World (<[f := content]> (files w)) (console w)).

Definition print (l : line) : IO unit :=
  fun w => Some (tt, World (files w) (console w ++ [l])).

(** [f.name] *)
Definition name (f : path) : str := List.last f [].

(** [docs_dir.rglob('*.html')]: every file of the tree whose name ends in
    [.html], in the order the directory scan yields them.  The tree is
    taken to hold regular files only. *)
Definition rglob_html : IO (list path) :=
  fun w => Some (List.filter (fun f => ends_with (lit ".html") (name f))
                             (map fst (map_to_list (files w))), w).

(** Order on paths: component by component, a component code point by
    code point. *)
Fixpoint str_leb (a b : str) : bool :=
  match a, b with
  | [], _ => true
  | _ :: _, [] => false
  | x :: a', y :: b' => (x <? y)%N || (x =? y)%N && str_leb a' b'
  end.

Fixpoint path_leb (a b : path) : bool :=
  match a, b with
  | [], _ => true
  | _ :: _, [] => false
  | x :: a', y :: b' =>
      if str_eqb x y then path_leb a' b' else str_leb x y
  end.

Fixpoint insert_sorted (f : path) (l : list path) : list path :=
  match l with
  | [] => [f]
  | g :: l' => if path_leb f g then f :: l else g :: insert_sorted f l'
  end.

(** [sorted(paths)] *)
Definition sorted (l : list path) : list path := fold_right insert_sorted [] l.

(** The counting loop shared by the two [main] functions. *)
Fixpoint count_loop (patch : path -> IO bool) (l : list path)
    (updated skipped : nat) : IO (nat * nat) :=
  match l with
  | [] => mret (updated, skipped)
  | html_file :: l' =>
      b ← patch html_file;
      if b : bool then count_loop patch l' (updated + 1) skipped
      else count_loop patch l' updated (skipped + 1)
  end.

(** What one call of a patcher decides from the content it read: the
    value it returns, the content it writes back (if it writes), the line
    it prints. *)
Record outcome :=
  Outcome { returned : bool; written : option (list N); mark : glyph; message : list N }.

Definition perform (f : path) (o : outcome) (w : world) : world :=
  World (match written o with
         | Some content => <[f := content]> (files w)
         | None => files w
         end)
        (console w ++ [Status (mark o) f (message o)]).

(** The content of the file after the call. *)
Definition content_after (o : outcome) (content : str) : str :=
  match written o with
  | Some content' => content'
  | None => content
  end.

End Sys.

(** ** add-text-size-control.py *)
Module TextSize.
Import Re Sys.

Definition TEXT_SIZE_CONTROL : str := lit
"
  <!-- Text Size Adjustment Tool -->
  <div class=`text-size-control`>
    <button class=`text-size-btn` onclick=`adjustTextSize('decrease')` aria-label=`Decrease text size`>
      <i data-lucide=`minus`></i>
    </button>
    <button class=`text-size-btn active` onclick=`adjustTextSize('reset')` aria-label=`Reset text size`>
      <i data-lucide=`type`></i>
    </button>
    <button class=`text-size-btn` onclick=`adjustTextSize('increase')` aria-label=`Increase text size`>
      <i data-lucide=`plus`></i>
    </button>
  </div>
  <script>
  (function() {
    const sizes = ['small', 'normal', 'large'];
    const fontSizes = { small: '15px', normal: '16px', large: '18px' };
    
    function adjustTextSize(action) {
      let currentSize = localStorage.getItem('textSize') || 'normal';
      let newSize = currentSize;
      
      if (action === 'decrease') {
        if (currentSize === 'normal') newSize = 'small';
        else if (currentSize === 'large') newSize = 'normal';
      } else if (action === 'increase') {
        if (currentSize === 'small') newSize = 'normal';
        else if (currentSize === 'normal') newSize = 'large';
      } else if (action === 'reset') {
        newSize = 'normal';
      }
      
      localStorage.setItem('textSize', newSize);
      applyTextSize(newSize);
      updateButtons(newSize);
    }
    
    function applyTextSize(size) {
      document.documentElement.style.fontSize = fontSizes[size];
    }
    
    function updateButtons(size) {
      const buttons = document.querySelectorAll('.text-size-btn');
      buttons.forEach(btn => btn.classList.remove('active'));
      
      if (size === 'small') buttons[0].classList.add('active');
      else if (size === 'normal') buttons[1].classList.add('active');
      else if (size === 'large') buttons[2].classList.add('active');
    }
    
    // Initialize on page load
    const savedSize = localStorage.getItem('textSize') || 'normal';
    applyTextSize(savedSize);
    
    // Update buttons after lucide icons are loaded
    document.addEventListener('DOMContentLoaded', () => {
      updateButtons(savedSize);
    });
    
    // Make function globally available
    window.adjustTextSize = adjustTextSize;
  })();
  </script>
".

(** The anchor: optional white space, the icon-initialisation script tag,
    optional white space, the body-close tag; all of it is group 1. *)
Definition pattern : regex :=
  [Group [Spaces; Lit (lit "<script>lucide.createIcons();</script>");
          Spaces; Lit (lit "</body>")]].

(** [TEXT_SIZE_CONTROL + r'\1'] *)
Definition replacement : list piece := [Text TEXT_SIZE_CONTROL; Ref 1].

Definition add_text_size_control (html_path : path) : IO bool :=
  content ← read_file html_path;
  (* Skip if already has text-size-control *)
  if contains (lit "text-size-control") content then
    print (Status Check_mark html_path (lit "already has text-size control"));;
    mret false
  else
    match search pattern content with
    | Some _ =>
        let new_content := sub pattern replacement content 0 in
        write_file html_path new_content;;
        print (Status Check_mark html_path (lit "added text-size control"));;
        mret true
    | None =>
        print (Status Cross_mark html_path (lit "could not find insertion point"));;
        mret false
    end.

Definition main : IO unit :=
  html_files ← rglob_html;
  (* Exclude the text-size-control.html file itself *)
  let html_files :=
    List.filter (fun f => negb (str_eqb (name f) (lit "text-size-control.html")))
                html_files in
  print (Found (length html_files));;
  print Blank;;
  '(updated, skipped) ← count_loop add_text_size_control (sorted html_files) 0 0;
  print Blank;;
  print (Updated updated);;
  print (Skipped skipped).

(** The decisions of [add_text_size_control], as a function of the content
    read. *)
Definition plan (content : str) : outcome :=
  if contains (lit "text-size-control") content then
    Outcome false None Check_mark (lit "already has text-size control")
  else
    match search pattern content with
    | Some _ =>
        Outcome true (Some (sub pattern replacement content 0)) Check_mark
                (lit "added text-size control")
    | None =>
        Outcome false None Cross_mark (lit "could not find insertion point")
    end.

End TextSize.

(** ** add-dark-mode-toggle.py *)
Module DarkMode.
Import Re Sys.

Definition DARK_MODE_TOGGLE_AND_SCRIPT : str := lit
"  </div><!-- /site-controls -->
  <script>
  (function() {
    function toggleTheme() {
      var isDark = document.documentElement.getAttribute(`data-theme`) === `dark`;
      var newTheme = isDark ? `light` : `dark`;
      document.documentElement.setAttribute(`data-theme`, newTheme);
      localStorage.setItem(`theme`, newTheme);
      lucide.createIcons();
    }
    var saved = localStorage.getItem(`theme`);
    if (saved === `dark` || (!saved && window.matchMedia(`(prefers-color-scheme: dark)`).matches)) {
      document.documentElement.setAttribute(`data-theme`, `dark`);
    }
    window.toggleTheme = toggleTheme;
  })();
  </script>
".

Definition nl : str := [10%N].

(** State C, first substitution: the widget comment and the white space
    after it (group 1), then the opening tag of the widget. *)
Definition wrap_pattern : regex :=
  [Group [Lit (lit "<!-- Text Size Adjustment Tool -->"); Spaces];
   Plain (Lit (lit "<div class=`text-size-control`>"))].

Definition wrap_replacement : list piece :=
  [Ref 1; Text (lit
"<div class=`site-controls`>
  <button class=`theme-toggle` onclick=`toggleTheme()` aria-label=`Toggle dark mode`>
    <span class=`icon-sun`><i data-lucide=`sun`></i></span>
    <span class=`icon-moon`><i data-lucide=`moon`></i></span>
  </button>
  <div class=`text-size-control`>")].

(** The end of the widget script (group 1), white space, the
    icon-initialisation script tag (group 2). *)
Definition script_pattern : regex :=
  [Group [Spaces; Lit (lit "window.adjustTextSize = adjustTextSize;");
          Spaces; Lit (lit "})();");
          Spaces; Lit (lit "</script>")];
   Plain Spaces;
   Group [Lit (lit "<script>lucide.createIcons();</script>")]].

(** [r'\1\n\n' + DARK_MODE_TOGGLE_AND_SCRIPT + r'\n\n\2'] *)
Definition script_replacement : list piece :=
  [Ref 1; Text (nl ++ nl); Text DARK_MODE_TOGGLE_AND_SCRIPT; Text (nl ++ nl);
   Ref 2].

(** State D: the opening tag of the wrapper and the white space after it
    (group 1), then the opening tag of the widget. *)
Definition button_pattern : regex :=
  [Group [Lit (lit "<div class=`site-controls`>"); Spaces];
   Plain (Lit (lit "<div class=`text-size-control`>"))].

Definition button_replacement : list piece :=
  [Ref 1; Text (lit
"<button class=`theme-toggle` onclick=`toggleTheme()` aria-label=`Toggle dark mode`>
    <span class=`icon-sun`><i data-lucide=`sun`></i></span>
    <span class=`icon-moon`><i data-lucide=`moon`></i></span>
  </button>
  <div class=`text-size-control`>")].

Definition add_dark_mode_toggle (html_path : path) : IO bool :=
  content ← read_file html_path;
  (* Check if already has dark mode toggle *)
  if contains (lit "toggleTheme") content then
    print (Status Check_mark html_path (lit "already has dark mode toggle"));;
    mret false
  (* Check if has site-controls wrapper (from text-size control) *)
  else if negb (contains (lit "<div class=`text-size-control`>") content) then
    print (Status Cross_mark html_path (lit "missing text-size-control, skipping"));;
    mret false
  (* Find and wrap the text-size-control in site-controls if not already wrapped *)
  else if negb (contains (lit "<div class=`site-controls`>") content) then
    (* Add site-controls wrapper and theme toggle before text-size-control *)
    let content := sub wrap_pattern wrap_replacement content 1 in
    (* Add closing wrapper and toggleTheme script before the final
       lucide.createIcons() call *)
    let content := sub script_pattern script_replacement content 1 in
    write_file html_path content;;
    print (Status Check_mark html_path (lit "added dark mode toggle"));;
    mret true
  else
    (* Already has site-controls, just check if toggle is present *)
    if negb (contains (lit "<button class=`theme-toggle`") content) then
      (* Add theme toggle before text-size-control *)
      let content := sub button_pattern button_replacement content 1 in
      (* Add closing wrapper and script if not present *)
      let content :=
        if negb (contains (lit "</div><!-- /site-controls -->") content)
        then sub script_pattern script_replacement content 1
        else content in
      write_file html_path content;;
      print (Status Check_mark html_path (lit "added theme toggle button"));;
      mret true
    else
      print (Status Check_mark html_path (lit "already complete"));;
      mret false.

Definition main : IO unit :=
  html_files ← rglob_html;
  (* Exclude the text-size-control.html file itself *)
  let html_files :=
    List.filter (fun f => negb (str_eqb (name f) (lit "text-size-control.html")))
                html_files in
  print (Found (length html_files));;
  print Blank;;
  '(updated, skipped) ← count_loop add_dark_mode_toggle (sorted html_files) 0 0;
  print Blank;;
  print (Updated updated);;
  print (Skipped skipped).

(** The decisions of [add_dark_mode_toggle], as a function of the content
    read. *)
Definition plan (content : str) : outcome :=
  if contains (lit "toggleTheme") content then
    Outcome false None Check_mark (lit "already has dark mode toggle")
  else if negb (contains (lit "<div class=`text-size-control`>") content) then
    Outcome false None Cross_mark (lit "missing text-size-control, skipping")
  else if negb (contains (lit "<div class=`site-controls`>") content) then
    let content := sub wrap_pattern wrap_replacement content 1 in
    let content := sub script_pattern script_replacement content 1 in
    Outcome true (Some content) Check_mark (lit "added dark mode toggle")
  else
    if negb (contains (lit "<button class=`theme-toggle`") content) then
      let content := sub button_pattern button_replacement content 1 in
      let content :=
        if negb (contains (lit "</div><!-- /site-controls -->") content)
        then sub script_pattern script_replacement content 1
        else content in
      Outcome true (Some content) Check_mark (lit "added theme toggle button")
    else
      Outcome false None Check_mark (lit "already complete").

End DarkMode.

(** ** The injected widget script

    [adjustTextSize] of [TEXT_SIZE_CONTROL], over the [textSize] item of
    [localStorage] ([None]: the item is not set). *)
Module Widget.
#[local] Open Scope string_scope.

Definition sizes : list string := ["small"; "normal"; "large"].

Definition fontSizes (size : string) : option string :=
  if size =? "small" then Some "15px"
  else if size =? "normal" then Some "16px"
  else if size =? "large" then Some "18px"
  else None.

(** [localStorage.getItem('textSize') || 'normal']: [null] and the empty
    string are falsy. *)
Definition current_size (textSize : option string) : string :=
  match textSize with
  | Some s => if s =? "" then "normal" else s
  | None => "normal"
  end.

(** The value [adjustTextSize(action)] stores back. *)
Definition adjustTextSize (action : string) (textSize : option string) : string :=
  let currentSize := current_size textSize in
  let newSize := currentSize in
  if action =? "decrease" then
    if currentSize =? "normal" then "small"
    else if currentSize =? "large" then "normal"
    else newSize
  else if action =? "increase" then
    if currentSize =? "small" then "normal"
    else if currentSize =? "normal" then "large"
    else newSize
  else if action =? "reset" then "normal"
  else newSize.

(** [updateButtons]: the index of the button that becomes active. *)
Definition active_button (size : string) : option nat :=
  if size =? "small" then Some 0
  else if size =? "normal" then Some 1
  else if size =? "large" then Some 2
  else None.

End Widget.



(** ** The widget script on a page

    The script of [TEXT_SIZE_CONTROL] as it acts on what it reads and
    writes: the [textSize] item of [localStorage], the value given to
    [document.documentElement.style.fontSize], and the [active] class of the
    elements [document.querySelectorAll('.text-size-btn')] returns, in
    document order. *)
Module WidgetPage.
#[local] Open Scope string_scope.

Record page := Page {
  textSize : option string;   (* the item; [None]: not set *)
  fontSize : option string;   (* last value assigned; [None]: none, or undefined *)
  buttons : list bool         (* button by button: has class [active] *)
}.

(** How a call ends: it returns, or [buttons[i].classList] raises a
    [TypeError] because [buttons[i]] is undefined; either way with the page
    as the statements run so far left it. *)
Inductive completion :=
| Done (p : page)
| TypeError (p : page).

(** [localStorage.setItem('textSize', newSize)] *)
Definition setItem (newSize : string) (p : page) : page :=
  {| textSize := Some newSize; fontSize := fontSize p; buttons := buttons p |}.

Definition applyTextSize (size : string) (p : page) : page :=
  {| textSize := textSize p; fontSize := Widget.fontSizes size;
     buttons := buttons p |}.

Definition updateButtons (size : string) (p : page) : completion :=
  let cleared := map (fun _ : bool => false) (buttons p) in
  match Widget.active_button size with
  | Some i =>
      if (i <? length cleared)%nat then
        Done {| textSize := textSize p; fontSize := fontSize p;
                buttons := <[i := true]> cleared |}
      else
        TypeError {| textSize := textSize p; fontSize := fontSize p;
                     buttons := cleared |}
  | None =>
      Done {| textSize := textSize p; fontSize := fontSize p;
              buttons := cleared |}
  end.

Definition adjustTextSize (action : string) (p : page) : completion :=
  let newSize := Widget.adjustTextSize action (textSize p) in
  updateButtons newSize (applyTextSize newSize (setItem newSize p)).

(** The statements the script runs on load: [applyTextSize(savedSize)] at
    once, [updateButtons(savedSize)] when the document is parsed. *)
Definition init (p : page) : completion :=
  let savedSize := Widget.current_size (textSize p) in
  updateButtons savedSize (applyTextSize savedSize p).

(** Clicks on the buttons, one [adjustTextSize(action)] each. *)
Fixpoint clicks (actions : list string) (p : page) : completion :=
  match actions with
  | [] => Done p
  | action :: rest =>
      match adjustTextSize action p with
      | Done p' => clicks rest p'
      | TypeError p' => TypeError p'
      end
  end.

(** The buttons as the markup of [TEXT_SIZE_CONTROL] has them, for a page
    that holds [k] copies of it: three buttons each, the second one
    [active]. *)
Definition markup_buttons (k : nat) : list bool :=
  concat (repeat [false; true; false] k).

(** A page with [k] copies of the snippet as the browser has it before the
    script runs, the item being [stored]. *)
Definition load (k : nat) (stored : option string) : page :=
  {| textSize := stored; fontSize := None; buttons := markup_buttons k |}.

End WidgetPage.

(** ** The theme script on a page

    The script of [DARK_MODE_TOGGLE_AND_SCRIPT] over the [data-theme]
    attribute of the root element and the [theme] item of [localStorage]. *)
Module Theme.
#[local] Open Scope string_scope.

Record page := Page {
  data_theme : option string;   (* [getAttribute]; [None]: null *)
  theme : option string         (* [getItem]; [None]: null *)
}.

(** [document.documentElement.getAttribute(`data-theme`) === `dark`] *)
Definition isDark (p : page) : bool :=
  match data_theme p with
  | Some a => a =? "dark"
  | None => false
  end.

Definition toggleTheme (p : page) : page :=
  let newTheme := if isDark p then "light" else "dark" in
  {| data_theme := Some newTheme; theme := Some newTheme |}.

(** [!saved]: [null] and the empty string. *)
Definition falsy (saved : option string) : bool :=
  match saved with
  | Some s => s =? ""
  | None => true
  end.

(** The statements the script runs on load; [prefers_dark] is
    [window.matchMedia(`(prefers-color-scheme: dark)`).matches]. *)
Definition init (prefers_dark : bool) (p : page) : page :=
  let saved := theme p in
  if (match saved with Some s => s =? "dark" | None => false end)
     || (falsy saved && prefers_dark)
  then {| data_theme := Some "dark"; theme := theme p |}
  else p.

End Theme.
(** ** Vocabulary of the properties

    The markers and pieces of text the properties speak about, the shapes
    of content they distinguish, and the sample pages they are tried on. *)
Section Vocabulary.
Import Re Sys.

(** What an atom of a pattern can consume. *)
Definition seg_ok (a : atom) (seg : list N) : Prop :=
  match a with
  | Lit l => seg = l
  | Spaces => forallb is_space seg = true
  end.

(** [d] begins nowhere in [k], whatever follows [k]. *)
Definition never_starts (d k : list N) : Prop :=
  forall u v r, k = u ++ v -> v <> [] -> starts_with d (v ++ r) = false.

(** The substrings the two scripts test with [in]. *)
Definition marker_text_size : list N := lit "text-size-control".
Definition marker_toggle : list N := lit "toggleTheme".
Definition marker_widget : list N := lit "<div class=`text-size-control`>".
Definition marker_wrapper : list N := lit "<div class=`site-controls`>".
Definition marker_button : list N := lit "<button class=`theme-toggle`".
Definition marker_wrapper_close : list N := lit "</div><!-- /site-controls -->".

(** Literal parts of the patterns. *)
Definition comment_line : list N := lit "<!-- Text Size Adjustment Tool -->".
Definition script_close : list N := lit "</script>".
Definition icons_script : list N := lit "<script>lucide.createIcons();</script>".

(** The declaration of the toggle function inside
    [DARK_MODE_TOGGLE_AND_SCRIPT]. *)
Definition function_decl : list N := lit "function toggleTheme".

(** The three substitutions of [add_dark_mode_toggle]. *)
Definition wrap (c : list N) : list N :=
  sub DarkMode.wrap_pattern DarkMode.wrap_replacement c 1.
Definition add_script (c : list N) : list N :=
  sub DarkMode.script_pattern DarkMode.script_replacement c 1.
Definition add_button (c : list N) : list N :=
  sub DarkMode.button_pattern DarkMode.button_replacement c 1.

(** The button, as both templates spell it, up to the widget tag. *)
Definition button_markup : list N := lit
"<button class=`theme-toggle` onclick=`toggleTheme()` aria-label=`Toggle dark mode`>
    <span class=`icon-sun`><i data-lucide=`sun`></i></span>
    <span class=`icon-moon`><i data-lucide=`moon`></i></span>
  </button>
  ".

(** What state C puts in front of the widget tag. *)
Definition wrapper_markup : list N := lit "<div class=`site-controls`>
  " ++ button_markup.

(** What is put in front of the icon script. *)
Definition script_block : list N :=
  DarkMode.nl ++ DarkMode.nl ++ DarkMode.DARK_MODE_TOGGLE_AND_SCRIPT ++
  DarkMode.nl ++ DarkMode.nl.

(** The widget inside [TEXT_SIZE_CONTROL]: from its opening tag to the end
    of its script, without the comment line above and the line break
    below. *)
Definition widget_markup : list N :=
  firstn (length TextSize.TEXT_SIZE_CONTROL - 41)
         (skipn 40 TextSize.TEXT_SIZE_CONTROL).

(** The last three lines of the widget script, cut the way [script_pattern]
    reads them. *)
Definition script_tail : list (list N) :=
  [DarkMode.nl ++ lit "    "; lit "window.adjustTextSize = adjustTextSize;";
   DarkMode.nl ++ lit "  "; lit "})();";
   DarkMode.nl ++ lit "  "; script_close].

Definition snippet_before_tail : list N :=
  firstn (length TextSize.TEXT_SIZE_CONTROL - length (concat script_tail) - 1)
         TextSize.TEXT_SIZE_CONTROL.

(** A marker whose occurrences neither appear nor disappear at the places
    where the three substitutions cut the text. *)
Definition stable (m : list N) : bool :=
  match m with a :: _ => negb (is_space a) | [] => false end &&
  clear_right m marker_widget && clear_right m wrapper_markup &&
  clear_right m button_markup &&
  clear_left m script_close && clear_right m icons_script.

(** A content that holds the snippet followed by the icon script, as the
    Text-Size Patcher writes it. *)
Definition holds_widget_block (c pre g post : list N) : Prop :=
  forallb is_space g = true /\
  c = pre ++ TextSize.TEXT_SIZE_CONTROL ++ g ++ icons_script ++ post.


(** The content on which the last branch of [add_dark_mode_toggle] runs. *)
Definition button_without_function (c : list N) : Prop :=
  contains marker_toggle c = false /\ contains marker_widget c = true /\
  contains marker_wrapper c = true /\ contains marker_button c = true.

(** The list [html_files] of [main], after the exclusion. *)
Definition html_files (w : world) : list (list (list N)) :=
  List.filter (fun f => negb (str_eqb (name f) (lit "text-size-control.html")))
    (List.filter (fun f => ends_with (lit ".html") (name f))
       (map fst (map_to_list (files w)))).

(** Sample pages: the bare anchor, a page that holds it twice, and the page
    the Text-Size Patcher makes of the bare anchor. *)
Definition anchor : list N := lit "<script>lucide.createIcons();</script></body>".
Definition two_anchor_page : list N := anchor ++ [10%N] ++ anchor.
Definition patched_page : list N := TextSize.TEXT_SIZE_CONTROL ++ anchor.

(** A tree in which the excluded name sits in a subdirectory, with a content
    that would otherwise be patched. *)
Definition docs_tree : world :=
  World {[ [lit "index.html"] := anchor;
           [lit "tools"; lit "text-size-control.html"] := anchor ]} [].

End Vocabulary.

(** ** Vocabulary of the sweeps *)
Section SweepVocabulary.
Import Re Sys.

(** The file a status line is about. *)
Definition line_file (ln : line) : option (list (list N)) :=
  match ln with
  | Status _ f _ => Some f
  | _ => None
  end.

(** The status lines with which [add_text_size_control] reports a file it
    rewrote, and those of [add_dark_mode_toggle]. *)
Definition text_size_added (ln : line) : bool :=
  match ln with
  | Status _ _ msg => str_eqb msg (lit "added text-size control")
  | _ => false
  end.

Definition dark_mode_added (ln : line) : bool :=
  match ln with
  | Status _ _ msg =>
      str_eqb msg (lit "added dark mode toggle") ||
      str_eqb msg (lit "added theme toggle button")
  | _ => false
  end.


End SweepVocabulary.

(** ** Vocabulary of the edge cases *)
Section EdgeVocabulary.
Import Re Sys.

(** The comment line is followed, after white space at most, by the widget
    tag somewhere in the content: what [wrap_pattern] looks for. *)
Definition comment_before_widget (c : list N) : Prop :=
  exists a g b,
    forallb is_space g = true /\
    c = a ++ comment_line ++ g ++ marker_widget ++ b.

(** The end of the widget script is followed, after white space at most, by
    the icon script somewhere in the content: what [script_pattern] looks
    for. *)
Definition tail_before_icons (c : list N) : Prop :=
  exists a g1 g2 g3 g b,
    (forallb is_space g1 = true /\ forallb is_space g2 = true /\
     forallb is_space g3 = true /\ forallb is_space g = true) /\
    c = a ++ g1 ++ lit "window.adjustTextSize = adjustTextSize;" ++ g2 ++
        lit "})();" ++ g3 ++ script_close ++ g ++ icons_script ++ b.

End EdgeVocabulary.

(** ** Vocabulary of insertions *)
Section InsertionVocabulary.

(** [grown t s s']: [s'] is [s] with copies of [t] put in at some places,
    and nothing else changed. *)
Inductive grown (t : list N) : list N -> list N -> Prop :=
| grown_same s : grown t s s
| grown_keep c s s' : grown t s s' -> grown t (c :: s) (c :: s')
| grown_put s s' : grown t s s' -> grown t s (t ++ s').

(** No suffix of [m], [m] itself included, agrees with [t]. *)
Definition apart (m t : list N) : bool :=
  forallb (fun n => negb (compat (skipn n m) t)) (seq 0 (length m)).

End InsertionVocabulary.

(** ** Vocabulary of the pages *)
Section PageVocabulary.

(** The content holds an anchor of the Text-Size Patcher: the icon script
    tag and the body-close tag with white space at most between them. *)
Definition holds_anchor (c : list N) : Prop :=
  exists a w1 w2 b,
    forallb is_space w1 = true /\ forallb is_space w2 = true /\
    c = a ++ w1 ++ icons_script ++ w2 ++ lit "</body>" ++ b.

(** A page neither patcher has touched: none of their markers. *)
Definition untouched (c : list N) : Prop :=
  contains marker_text_size c = false /\
  contains marker_wrapper c = false /\ contains marker_button c = false /\
  contains marker_toggle c = false /\ contains marker_wrapper_close c = false.

End PageVocabulary.


Section ScriptVocabulary.
#[local] Open Scope string_scope.

(** What the [textSize] item holds when it is not set, empty, or was
    written by the widget. *)
Definition own_value (stored : option string) : Prop :=
  match stored with
  | None => True
  | Some s => s = "" \/ In s Widget.sizes
  end.

(** The item after a run of clicks. *)
Definition stored_after (actions : list string) (stored : option string)
  : option string :=
  fold_left (fun v action => Some (Widget.adjustTextSize action v)) actions stored.

(** A page with [n] buttons shows size [s]: the font size is the one
    [fontSizes] gives for [s], and the one active button is the one at the
    place [s] has in [sizes]. *)
Definition shows (s : string) (n : nat) (p : WidgetPage.page) : Prop :=
  exists i px,
    nth_error Widget.sizes i = Some s /\ Widget.fontSizes s = Some px /\
    WidgetPage.fontSize p = Some px /\
    WidgetPage.buttons p = <[i := true]> (repeat false n).

(** A value of the item that is none of the three sizes. *)
Definition foreign (v : string) : Prop := v <> "" /\ ~ In v Widget.sizes.

End ScriptVocabulary.
(** * Properties *)

(** ** Text *)
Section TextFacts.
Implicit Types (m s x y : list N) (c : N).

Lemma starts_with_iff m s : starts_with m s = true <-> exists r, s = m ++ r.
Proof.
  revert s; induction m as [|a m IH]; intros [|b s]; simpl.
  - split; eauto.
  - split; eauto.
  - split; [discriminate | intros [r Hr]; discriminate].
  - rewrite andb_true_iff, N.eqb_eq, IH. split.
    + intros [-> [r ->]]; eauto.
    + intros [r Hr]; injection Hr as -> ->; eauto.
Qed.

Lemma starts_with_app m r : starts_with m (m ++ r) = true.
Proof. apply starts_with_iff; eauto. Qed.

Lemma starts_with_refl m : starts_with m m = true.
Proof. apply starts_with_iff; exists []; now rewrite app_nil_r. Qed.

Lemma strip_prefix_iff m s r : strip_prefix m s = Some r <-> s = m ++ r.
Proof.
  revert s; induction m as [|a m IH]; intros [|b s]; simpl.
  - split; congruence.
  - split; congruence.
  - split; discriminate.
  - destruct (N.eqb_spec a b) as [->|Hne].
    + rewrite IH; split; congruence.
    + split; [discriminate | congruence].
Qed.

Lemma strip_prefix_app m r : strip_prefix m (m ++ r) = Some r.
Proof. now apply strip_prefix_iff. Qed.

Lemma strip_prefix_starts_with m s :
  strip_prefix m s = None <-> starts_with m s = false.
Proof.
  revert s; induction m as [|a m IH]; intros [|b s]; simpl;
    try (split; congruence).
  destruct (N.eqb_spec a b); simpl; [apply IH | tauto].
Qed.

Lemma str_eqb_eq a b : str_eqb a b = true <-> a = b.
Proof.
  unfold str_eqb. rewrite andb_true_iff, Nat.eqb_eq, starts_with_iff. split.
  - intros [Hlen [r ->]]. rewrite length_app in Hlen.
    destruct r; [now rewrite app_nil_r | simpl in Hlen; lia].
  - intros ->; split; [easy | exists []; now rewrite app_nil_r].
Qed.

Lemma contains_iff m s : contains m s = true <-> exists a b, s = a ++ m ++ b.
Proof.
  induction s as [|c s IH]; simpl.
  - rewrite orb_false_r, starts_with_iff. split.
    + intros [r Hr]; exists [], r; easy.
    + intros [[|a1 a] [b Hb]]; [eauto | discriminate].
  - rewrite orb_true_iff, starts_with_iff, IH. split.
    + intros [[r Hr] | (a & b & ->)].
      * exists [], r; easy.
      * exists (c :: a), b; easy.
    + intros [[|a1 a] [b Hb]]; [left; eauto | right].
      injection Hb as _ ->; eauto.
Qed.

Lemma contains_app_mid m a s b :
  contains m s = true -> contains m (a ++ s ++ b) = true.
Proof.
  rewrite !contains_iff. intros (u & v & ->).
  exists (a ++ u), (v ++ b). now rewrite <- !app_assoc.
Qed.

Lemma contains_app_l m s b : contains m s = true -> contains m (s ++ b) = true.
Proof. apply (contains_app_mid m [] s b). Qed.

Lemma contains_app_r m a s : contains m s = true -> contains m (a ++ s) = true.
Proof.
  intros H. generalize (contains_app_mid m a s [] H). now rewrite app_nil_r.
Qed.

(** For a marker that is not empty, [contains] is "at least one
    occurrence". *)
Lemma contains_occurrences m s :
  m <> [] -> contains m s = negb (occurrences m s =? 0).
Proof.
  intros Hm. induction s as [|c s IH]; simpl.
  - destruct m; [congruence | reflexivity].
  - rewrite IH. destruct (starts_with m (c :: s)); simpl; [reflexivity|].
    reflexivity.
Qed.

Lemma occurrences_0 m s : m <> [] -> contains m s = false -> occurrences m s = 0.
Proof.
  intros Hm H. rewrite (contains_occurrences m s Hm) in H.
  apply negb_false_iff, Nat.eqb_eq in H. exact H.
Qed.

Lemma occurrences_pos m s : m <> [] -> contains m s = true -> 0 < occurrences m s.
Proof.
  intros Hm H. rewrite (contains_occurrences m s Hm) in H.
  apply negb_true_iff, Nat.eqb_neq in H. lia.
Qed.

End TextFacts.

(** ** Occurrences on both sides of a junction *)
Section Junctions.
Implicit Types (m k s x y : list N) (c : N).

Lemma compat_of_common_start a b r1 r2 : a ++ r1 = b ++ r2 -> compat a b = true.
Proof.
  intros H. unfold compat. apply orb_true_iff.
  destruct (app_eq_app _ _ _ _ H) as [l [[-> _] | [-> _]]].
  - right. apply starts_with_app.
  - left. apply starts_with_app.
Qed.

Lemma starts_with_cross m x y :
  starts_with m (x ++ y) = true ->
  starts_with m x = true \/
  exists v, v <> [] /\ m = x ++ v /\ starts_with v y = true.
Proof.
  rewrite starts_with_iff. intros [r Hr].
  destruct (app_eq_app _ _ _ _ Hr) as [l [[-> _] | [-> Hy]]].
  - left. apply starts_with_app.
  - destruct l as [|c l].
    + left. rewrite app_nil_r. apply starts_with_refl.
    + right. exists (c :: l). split; [discriminate|]. split; [reflexivity|].
      apply starts_with_iff; eauto.
Qed.

Lemma starts_with_mono m x y :
  starts_with m x = true -> starts_with m (x ++ y) = true.
Proof.
  rewrite !starts_with_iff. intros [r ->]. exists (r ++ y).
  now rewrite app_assoc.
Qed.

Lemma in_seq_cut m x v : x <> [] -> v <> [] -> m = x ++ v ->
  In (length x) (seq 1 (length m - 1)).
Proof.
  intros Hx Hv ->. apply in_seq. rewrite length_app.
  destruct x; [congruence|]. destruct v; [congruence|]. simpl. lia.
Qed.

Lemma junction_right m k x y :
  clear_right m k = true -> x <> [] ->
  starts_with m (x ++ k ++ y) = starts_with m x.
Proof.
  intros Hclear Hx.
  destruct (starts_with m x) eqn:E; [now apply starts_with_mono|].
  destruct (starts_with m (x ++ k ++ y)) eqn:E'; [exfalso | reflexivity].
  destruct (starts_with_cross _ _ _ E') as [? | (v & Hv & Hm & Hs)]; [congruence|].
  unfold clear_right in Hclear. rewrite forallb_forall in Hclear.
  specialize (Hclear _ (in_seq_cut m x v Hx Hv Hm)).
  apply negb_true_iff in Hclear.
  rewrite Hm, skipn_app, skipn_all, Nat.sub_diag, skipn_O in Hclear.
  simpl in Hclear.
  apply starts_with_iff in Hs as [r Hr].
  symmetry in Hr. rewrite (compat_of_common_start _ _ _ _ Hr) in Hclear.
  discriminate.
Qed.

Lemma junction_left m k x y x1 x2 :
  clear_left m k = true -> x2 <> [] -> x ++ k = x1 ++ x2 ->
  starts_with m (x2 ++ y) = starts_with m x2.
Proof.
  intros Hclear Hx Hsplit.
  destruct (starts_with m x2) eqn:E; [now apply starts_with_mono|].
  destruct (starts_with m (x2 ++ y)) eqn:E'; [exfalso | reflexivity].
  destruct (starts_with_cross _ _ _ E') as [? | (v & Hv & Hm & Hs)]; [congruence|].
  unfold clear_left, clear_right in Hclear. rewrite forallb_forall in Hclear.
  assert (Hrev : rev m = rev v ++ rev x2) by now rewrite Hm, rev_app_distr.
  assert (Hin : In (length (rev v)) (seq 1 (length (rev m) - 1))).
  { apply (in_seq_cut _ (rev v) (rev x2)); [| | exact Hrev];
      intros Hnil; apply (f_equal (@rev N)) in Hnil;
      rewrite rev_involutive in Hnil; simpl in Hnil; congruence. }
  specialize (Hclear _ Hin). apply negb_true_iff in Hclear.
  rewrite Hrev, skipn_app, skipn_all, Nat.sub_diag, skipn_O in Hclear.
  simpl in Hclear.
  apply (f_equal (@rev N)) in Hsplit. rewrite !rev_app_distr in Hsplit.
  symmetry in Hsplit. rewrite (compat_of_common_start _ _ _ _ Hsplit) in Hclear.
  discriminate.
Qed.

Lemma occurrences_app_right m k x y :
  clear_right m k = true ->
  occurrences m (x ++ k ++ y) = occurrences m x + occurrences m (k ++ y).
Proof.
  intros Hclear. induction x as [|c x IH]; [reflexivity|].
  change ((c :: x) ++ k ++ y) with (c :: (x ++ k ++ y)).
  cbn [occurrences]. rewrite IH.
  change (c :: (x ++ k ++ y)) with ((c :: x) ++ k ++ y).
  rewrite (junction_right m k (c :: x) y Hclear) by discriminate. lia.
Qed.

Lemma occurrences_app_left_aux m k x y :
  clear_left m k = true ->
  forall x2 x1, x ++ k = x1 ++ x2 ->
  occurrences m (x2 ++ y) = occurrences m x2 + occurrences m y.
Proof.
  intros Hclear. induction x2 as [|c x2 IH]; intros x1 Hsplit; [reflexivity|].
  change ((c :: x2) ++ y) with (c :: (x2 ++ y)).
  cbn [occurrences]. rewrite (IH (x1 ++ [c])) by now rewrite <- app_assoc.
  change (c :: (x2 ++ y)) with ((c :: x2) ++ y).
  rewrite (junction_left m k x y x1 (c :: x2) Hclear) by easy. lia.
Qed.

Lemma occurrences_app_left m k x y :
  clear_left m k = true ->
  occurrences m ((x ++ k) ++ y) = occurrences m (x ++ k) + occurrences m y.
Proof. intros H. now apply (occurrences_app_left_aux m k x y H (x ++ k) []). Qed.

(** White space in front of a text adds no occurrence of a marker that
    starts with something else. *)
Lemma occurrences_spaces a m g y :
  is_space a = false -> forallb is_space g = true ->
  occurrences (a :: m) (g ++ y) = occurrences (a :: m) y.
Proof.
  intros Ha. induction g as [|c g IH]; intros Hg; [reflexivity|].
  simpl in Hg. apply andb_true_iff in Hg as [Hc Hg].
  simpl. rewrite (IH Hg).
  destruct (N.eqb_spec a c) as [->|_]; [congruence | reflexivity].
Qed.

(** Text put in front of [k]: the occurrences of the new text are added,
    no other appears or disappears. *)
Lemma occurrences_insert m k ins x y :
  clear_right m k = true -> clear_right m ins = true ->
  occurrences m (x ++ ins ++ k ++ y) =
  occurrences m (x ++ k ++ y) + occurrences m ins.
Proof.
  intros Hk Hins.
  rewrite (occurrences_app_right m ins x (k ++ y) Hins).
  rewrite (occurrences_app_right m k ins y Hk).
  rewrite (occurrences_app_right m k x y Hk). lia.
Qed.

(** White space between [kl] and [kr] replaced by a text. *)
Lemma occurrences_fill_gap a m kl kr ins x g y :
  is_space a = false -> forallb is_space g = true ->
  clear_left (a :: m) kl = true -> clear_right (a :: m) kr = true ->
  occurrences (a :: m) ((x ++ kl) ++ ins ++ kr ++ y) =
  occurrences (a :: m) ((x ++ kl) ++ g ++ kr ++ y) + occurrences (a :: m) ins.
Proof.
  intros Ha Hg Hl Hr.
  rewrite !(occurrences_app_left (a :: m) kl x _ Hl).
  rewrite (occurrences_app_right (a :: m) kr ins y Hr).
  rewrite (occurrences_spaces a m g (kr ++ y) Ha Hg). lia.
Qed.

Lemma never_starts_app d k1 k2 :
  never_starts d k1 -> never_starts d k2 -> never_starts d (k1 ++ k2).
Proof.
  intros H1 H2 u v r Huv Hv.
  destruct (app_eq_app _ _ _ _ Huv) as [l [[-> ->] | [-> ->]]].
  - destruct l as [|c l].
    + apply (H2 [] k2 r); [reflexivity | exact Hv].
    + rewrite <- app_assoc. apply (H1 u (c :: l)); [reflexivity | discriminate].
  - apply (H2 l v r); [reflexivity | exact Hv].
Qed.

Lemma never_starts_check d k :
  forallb (fun n => negb (compat (skipn n k) d)) (seq 0 (length k)) = true ->
  never_starts d k.
Proof.
  intros Hchk u v r -> Hv. rewrite forallb_forall in Hchk.
  assert (Hin : In (length u) (seq 0 (length (u ++ v)))).
  { apply in_seq. rewrite length_app. destruct v; [congruence | simpl; lia]. }
  specialize (Hchk _ Hin). apply negb_true_iff in Hchk.
  rewrite skipn_app, skipn_all, Nat.sub_diag, skipn_O in Hchk. simpl in Hchk.
  destruct (starts_with d (v ++ r)) eqn:E; [|reflexivity].
  apply starts_with_iff in E as [r' Hr'].
  rewrite (compat_of_common_start _ _ _ _ Hr') in Hchk. discriminate.
Qed.

Lemma never_starts_spaces a d g :
  is_space a = false -> forallb is_space g = true -> never_starts (a :: d) g.
Proof.
  intros Ha Hg u v r -> Hv. rewrite forallb_app in Hg.
  apply andb_true_iff in Hg as [_ Hg].
  destruct v as [|c v]; [congruence|]. simpl in Hg |- *.
  apply andb_true_iff in Hg as [Hc _].
  destruct (N.eqb_spec a c) as [->|_]; [congruence | reflexivity].
Qed.

(** Text put in front of an occurrence of [d] leaves in one piece every
    block in which [d] begins nowhere. *)
Lemma insertion_keeps_block d p b post x y ins :
  never_starts d b ->
  p ++ b ++ post = x ++ d ++ y ->
  exists p' post', x ++ ins ++ d ++ y = p' ++ b ++ post'.
Proof.
  intros Hb Heq.
  destruct (app_eq_app _ _ _ _ Heq) as [l [[-> Hy] | [-> Hy]]].
  - exists (x ++ ins ++ l), post. rewrite Hy. now rewrite <- !app_assoc.
  - destruct (app_eq_app _ _ _ _ Hy) as [l' [[-> Hy'] | [-> ->]]].
    + destruct l' as [|c l'].
      * exists p, (ins ++ d ++ y). now rewrite app_nil_r, <- !app_assoc.
      * exfalso. specialize (Hb l (c :: l') post eq_refl).
        rewrite <- Hy', starts_with_app in Hb. discriminate Hb. discriminate.
    + exists p, (l' ++ ins ++ d ++ y). now rewrite <- !app_assoc.
Qed.

End Junctions.

(** ** Regular expressions *)
Section ReFacts.
Import Re.
Implicit Types (p : regex) (s r w : list N).

Lemma greedy_spaces_sound {A} (k : list N -> option A) s w a :
  greedy_spaces k s = Some (w, a) ->
  exists r, s = w ++ r /\ forallb is_space w = true /\ k r = Some a.
Proof.
  revert w. induction s as [|c s IH]; intros w; simpl.
  - destruct (k []) eqn:E; simpl; [|discriminate].
    intros [= <- <-]. exists []. auto.
  - assert (Hstop : option_map (pair []) (k (c :: s)) = Some (w, a) ->
              exists r, c :: s = w ++ r /\ forallb is_space w = true /\ k r = Some a).
    { destruct (k (c :: s)) eqn:E; simpl; [|discriminate].
      intros [= <- <-]. exists (c :: s). auto. }
    destruct (is_space c) eqn:Hc; [|exact Hstop].
    destruct (greedy_spaces k s) as [[w' a']|] eqn:E; [|exact Hstop].
    intros [= <- <-]. destruct (IH _ eq_refl) as (r & -> & Hw & Hk).
    exists r. simpl. rewrite Hc. auto.
Qed.

(** White space followed by something that is not white space: the
    repetition takes all of it. *)
Lemma greedy_spaces_span {A} (k : list N -> option A) w s a :
  forallb is_space w = true ->
  match s with [] => True | c :: _ => is_space c = false end ->
  k s = Some a ->
  greedy_spaces k (w ++ s) = Some (w, a).
Proof.
  intros Hw Hs Hk. induction w as [|c w IH]; simpl.
  - destruct s as [|c s]; simpl; rewrite Hk; simpl; [reflexivity|].
    now rewrite Hs.
  - simpl in Hw. apply andb_true_iff in Hw as [Hc Hw].
    now rewrite Hc, (IH Hw).
Qed.

Lemma match_atoms_sound (q : list atom) s segs r :
  match_atoms q s = Some (segs, r) ->
  Forall2 seg_ok q segs /\ s = concat segs ++ r.
Proof.
  revert s segs. induction q as [|[l|] q IH]; intros s segs; simpl.
  - intros [= <- <-]. split; [constructor | reflexivity].
  - destruct (strip_prefix l s) as [s'|] eqn:E; [|discriminate].
    destruct (match_atoms q s') as [[segs' r']|] eqn:E'; [|discriminate].
    intros [= <- <-]. apply strip_prefix_iff in E as ->.
    destruct (IH _ _ E') as [Hok ->]. split.
    + constructor; [reflexivity | exact Hok].
    + simpl. now rewrite app_assoc.
  - destruct (greedy_spaces (match_atoms q) s) as [[w [segs' r']]|] eqn:E;
      [|discriminate].
    intros [= <- <-].
    destruct (greedy_spaces_sound _ _ _ _ E) as (r0 & -> & Hw & Hk).
    destruct (IH _ _ Hk) as [Hok ->]. split.
    + constructor; [exact Hw | exact Hok].
    + simpl. now rewrite app_assoc.
Qed.

Lemma search_sound p s pre m r :
  search p s = Some (pre, m, r) ->
  exists segs,
    Forall2 seg_ok (atoms p) segs /\ s = pre ++ concat segs ++ r /\
    m = {| whole := concat segs; groups := captures p segs |}.
Proof.
  revert pre. induction s as [|c s IH]; intros pre; simpl; unfold match_at.
  - destruct (match_atoms (atoms p) []) as [[segs r']|] eqn:E; [|discriminate].
    intros [= <- <- <-]. destruct (match_atoms_sound _ _ _ _ E) as [Hok Hs].
    exists segs. auto.
  - destruct (match_atoms (atoms p) (c :: s)) as [[segs r']|] eqn:E.
    + intros [= <- <- <-]. destruct (match_atoms_sound _ _ _ _ E) as [Hok Hs].
      exists segs. auto.
    + destruct (search p s) as [[[pre' m'] r']|] eqn:E'; [|discriminate].
      intros [= <- <- <-]. destruct (IH _ eq_refl) as (segs & Hok & -> & Hm).
      exists segs. auto.
Qed.

(** On a tight sequence, any text cut the way the atoms ask is matched, with
    exactly that cut. *)
Lemma match_atoms_complete (q : list atom) segs r :
  tight q = true -> Forall2 seg_ok q segs ->
  match_atoms q (concat segs ++ r) = Some (segs, r).
Proof.
  intros Ht Hok. revert Ht. induction Hok as [|a seg q segs Ha Hok IH];
    intros Ht; [reflexivity|].
  destruct a as [l|]; simpl in Ha, Ht |- *.
  - subst seg. rewrite <- app_assoc, strip_prefix_app, (IH Ht). reflexivity.
  - destruct q as [|[[|c l]|] q]; try discriminate.
    apply andb_true_iff in Ht as [Hc Ht]. apply negb_true_iff in Hc.
    rewrite <- app_assoc.
    rewrite (greedy_spaces_span _ seg (concat segs ++ r) (segs, r) Ha);
      [reflexivity | | exact (IH Ht)].
    inversion Hok as [|? seg' ? segs' Hl _]; subst. simpl in Hl. subst seg'.
    exact Hc.
Qed.

(** A match somewhere makes the search succeed. *)
Lemma search_complete p x y :
  match_at p y <> None -> search p (x ++ y) <> None.
Proof.
  intros Hy. induction x as [|c x IH]; simpl.
  - destruct y; simpl; destruct (match_at p _) as [[m r]|]; congruence.
  - destruct (match_at p (c :: x ++ y)) as [[m r]|]; [discriminate|].
    destruct (search p (x ++ y)) as [[[pre m] r]|]; congruence.
Qed.

(** [re.search] finds something exactly when the text can be cut as the
    pattern asks. *)
Lemma search_found_iff p s :
  tight (atoms p) = true ->
  search p s <> None <->
  exists pre segs r, Forall2 seg_ok (atoms p) segs /\ s = pre ++ concat segs ++ r.
Proof.
  intros Ht. split.
  - destruct (search p s) as [[[pre m] r]|] eqn:E; [intros _ | congruence].
    destruct (search_sound _ _ _ _ _ E) as (segs & Hok & Hs & _). eauto.
  - intros (pre & segs & r & Hok & ->). apply search_complete.
    unfold match_at. now rewrite (match_atoms_complete _ _ r Ht Hok).
Qed.

Lemma sub_none p repl s n : search p s = None -> sub p repl s n = s.
Proof.
  intros H. unfold sub. simpl. destruct n; simpl; now rewrite H.
Qed.

(** [count=1]: the leftmost match is replaced, the rest is kept. *)
Lemma sub_once p repl s :
  sub p repl s 1 =
  match search p s with
  | Some (pre, m, r) => pre ++ expand repl m ++ r
  | None => s
  end.
Proof.
  unfold sub. simpl. destruct (search p s) as [[[pre m] r]|]; [|reflexivity].
  do 2 f_equal. destruct (whole m), r as [|c r]; try reflexivity;
    destruct (length s); reflexivity.
Qed.

Lemma sub_once_cases p repl s :
  search p s = None /\ sub p repl s 1 = s \/
  search p s <> None /\
  exists pre segs r,
    Forall2 seg_ok (atoms p) segs /\ s = pre ++ concat segs ++ r /\
    sub p repl s 1 =
    pre ++ expand repl {| whole := concat segs; groups := captures p segs |} ++ r.
Proof.
  rewrite sub_once. destruct (search p s) as [[[pre m] r]|] eqn:E; [right | now left].
  split; [discriminate|].
  destruct (search_sound _ _ _ _ _ E) as (segs & Hok & Hs & ->).
  exists pre, segs, r. auto.
Qed.

(** No [count]: the leftmost match is replaced, and the loop goes on. *)
Lemma sub_all_head p repl s pre m r :
  search p s = Some (pre, m, r) ->
  exists rest, sub p repl s 0 = pre ++ expand repl m ++ rest.
Proof. intros H. unfold sub. simpl. rewrite H. eauto. Qed.

(** The fuel of [sub] is enough: more fuel changes nothing. *)
Lemma sub_loop_fuel p repl : forall n s limit f1 f2,
  length s <= n -> length s < f1 -> length s < f2 ->
  sub_loop f1 p repl limit s = sub_loop f2 p repl limit s.
Proof.
  induction n as [|n IH]; intros s limit [|f1] [|f2] Hn H1 H2; try lia.
  - destruct s; [|simpl in Hn; lia]. cbn [sub_loop].
    destruct limit as [[|?]|]; try reflexivity;
      destruct (search p []) as [[[pre m] r]|] eqn:E; try reflexivity;
      destruct (search_sound _ _ _ _ _ E) as (segs & _ & Hs & ->);
      cbn [whole]; symmetry in Hs;
      apply app_eq_nil in Hs as [-> Hs]; apply app_eq_nil in Hs as [-> ->];
      reflexivity.
  - cbn [sub_loop]. destruct limit as [[|?]|]; try reflexivity;
      destruct (search p s) as [[[pre m] r]|] eqn:E; try reflexivity;
      destruct (search_sound _ _ _ _ _ E) as (segs & _ & Hs & ->);
      cbn [whole]; do 2 f_equal;
      assert (Hlen : length s = length pre + length (concat segs) + length r)
        by (rewrite Hs, !length_app; lia);
      destruct (concat segs) as [|c0 w0]; simpl in Hlen.
    all: try (destruct r as [|c r]; [reflexivity | f_equal; simpl in Hlen;
              apply IH; simpl; lia]).
    all: apply IH; lia.
Qed.

Lemma sub_enough_fuel p repl s count fuel :
  length s < fuel ->
  sub_loop fuel p repl (match count with 0 => None | S _ => Some count end) s
  = sub p repl s count.
Proof.
  intros H. unfold sub. apply (sub_loop_fuel p repl (length s)); lia.
Qed.

(** The replacement text holds whatever one of its literal pieces holds. *)
Lemma contains_expand mk t repl m :
  In (Text t) repl -> contains mk t = true -> contains mk (expand repl m) = true.
Proof.
  intros Hin Hmk. unfold expand.
  destruct (in_split _ _ Hin) as (r1 & r2 & ->).
  rewrite flat_map_app. simpl. apply contains_app_mid. exact Hmk.
Qed.

End ReFacts.

(** ** The calls on a world *)
Section Runs.
Import Re Sys.

(** A call on a file that exists reads it, and does what [plan] says. *)
Lemma add_text_size_control_run (f : list (list N)) (w : world) (c : list N) :
  files w !! f = Some c ->
  TextSize.add_text_size_control f w =
  Some (returned (TextSize.plan c), perform f (TextSize.plan c) w).
Proof.
  intros Hf. unfold TextSize.add_text_size_control, TextSize.plan.
  unfold mbind, IO_bind, read_file. rewrite Hf.
  destruct (contains _ c); [reflexivity|].
  destruct (search TextSize.pattern c); reflexivity.
Qed.

Lemma add_dark_mode_toggle_run (f : list (list N)) (w : world) (c : list N) :
  files w !! f = Some c ->
  DarkMode.add_dark_mode_toggle f w =
  Some (returned (DarkMode.plan c), perform f (DarkMode.plan c) w).
Proof.
  intros Hf. unfold DarkMode.add_dark_mode_toggle, DarkMode.plan.
  unfold mbind, IO_bind, read_file. rewrite Hf.
  destruct (contains (lit "toggleTheme") c); [reflexivity|].
  destruct (contains (lit "<div class=`text-size-control`>") c);
    [|reflexivity].
  destruct (contains (lit "<div class=`site-controls`>") c); [|reflexivity].
  destruct (contains (lit "<button class=`theme-toggle`") c); reflexivity.
Qed.

(** A call on a file that does not exist fails, and only then. *)
Lemma add_text_size_control_missing (f : list (list N)) (w : world) :
  files w !! f = None -> TextSize.add_text_size_control f w = None.
Proof.
  intros Hf. unfold TextSize.add_text_size_control, mbind, IO_bind, read_file.
  now rewrite Hf.
Qed.

Lemma files_perform (f : list (list N)) (o : outcome) (w : world) (c : list N) :
  files w !! f = Some c ->
  files (perform f o w) !! f = Some (content_after o c).
Proof.
  intros Hf. unfold perform, content_after. simpl.
  destruct (written o); [apply lookup_insert_eq | exact Hf].
Qed.

Lemma files_perform_other (f g : list (list N)) (o : outcome) (w : world) :
  f <> g -> files (perform f o w) !! g = files w !! g.
Proof.
  intros Hne. unfold perform. simpl.
  destruct (written o); [now apply lookup_insert_ne | reflexivity].
Qed.

Lemma files_perform_skip (f : list (list N)) (o : outcome) (w : world) :
  written o = None -> files (perform f o w) = files w.
Proof. intros H. unfold perform. now rewrite H. Qed.

End Runs.

(** ** The widget script *)
Section WidgetFacts.
#[local] Open Scope string_scope.

(** C8.  The size-adjustment logic of the injected script is a three-level
    clamp: from normal (also when nothing is stored yet), increase gives
    large and a second increase stays at large; from large, decrease gives
    normal and then small; decrease from small and increase from large
    change nothing; reset gives normal whatever is stored; no action leads
    from one of the three sizes to a fourth one. *)
Theorem size_adjustment_three_level_clamp :
  let step a s := Widget.adjustTextSize a (Some s) in
  (Widget.adjustTextSize "increase" None = "large" /\
   step "increase" "normal" = "large" /\
   step "increase" (step "increase" "normal") = "large" /\
   step "decrease" "large" = "normal" /\
   step "decrease" (step "decrease" "large") = "small" /\
   step "decrease" "small" = "small" /\
   step "increase" "large" = "large" /\
   step "increase" "small" = "normal") /\
  (forall stored, Widget.adjustTextSize "reset" stored = "normal") /\
  Forall (fun s =>
    Forall (fun a => In (step a s) Widget.sizes) ["decrease"; "increase"; "reset"])
    Widget.sizes.
Proof.
  cbv zeta. split; [repeat split; reflexivity | split].
  - intros stored. reflexivity.
  - apply List.Forall_forall; intros s Hs.
    apply List.Forall_forall; intros a Ha. simpl in Hs, Ha.
    destruct Hs as [<-|[<-|[<-|[]]]]; destruct Ha as [<-|[<-|[<-|[]]]];
      vm_compute; repeat (first [left; reflexivity | right]).
Qed.

End WidgetFacts.

(** ** The Text-Size Patcher *)
Section TextSizeFacts.
Import Re Sys.

Lemma snippet_has_marker :
  contains marker_text_size TextSize.TEXT_SIZE_CONTROL = true.
Proof. vm_compute. reflexivity. Qed.

(** Whenever the anchor is found, the rewritten content holds the marker. *)
Lemma text_size_sub_has_marker (c : list N) :
  search TextSize.pattern c <> None ->
  contains marker_text_size (sub TextSize.pattern TextSize.replacement c 0) = true.
Proof.
  destruct (search TextSize.pattern c) as [[[pre m] r]|] eqn:E; [intros _ | congruence].
  destruct (sub_all_head _ TextSize.replacement _ _ _ _ E) as [rest ->].
  apply contains_app_r, contains_app_l.
  apply (contains_expand _ TextSize.TEXT_SIZE_CONTROL); [now left|].
  exact snippet_has_marker.
Qed.

(** The anchor is found exactly when the content holds the icon script tag
    and the body-close tag with nothing but white space between them. *)
Lemma anchor_found_iff (c : list N) :
  search TextSize.pattern c <> None <->
  exists a w1 w2 b,
    forallb is_space w1 = true /\ forallb is_space w2 = true /\
    c = a ++ w1 ++ lit "<script>lucide.createIcons();</script>" ++ w2 ++
        lit "</body>" ++ b.
Proof.
  rewrite search_found_iff by reflexivity. split.
  - intros (pre & segs & r & Hok & ->). cbn in Hok.
    inversion Hok as [|? w1 ? segs1 Hw1 Hok1]; subst.
    inversion Hok1 as [|? l1 ? segs2 Hl1 Hok2]; subst.
    inversion Hok2 as [|? w2 ? segs3 Hw2 Hok3]; subst.
    inversion Hok3 as [|? l2 ? segs4 Hl2 Hok4]; subst.
    inversion Hok4; subst. simpl in Hl1, Hl2, Hw1, Hw2. subst l1 l2.
    exists pre, w1, w2, r. split; [easy|]. split; [easy|].
    cbn [concat]. now rewrite app_nil_r, <- !app_assoc.
  - intros (a & w1 & w2 & b & Hw1 & Hw2 & ->).
    exists a, [w1; lit "<script>lucide.createIcons();</script>"; w2; lit "</body>"], b.
    split.
    + repeat constructor; assumption.
    + cbn [concat]. now rewrite app_nil_r, <- !app_assoc.
Qed.

End TextSizeFacts.

(** ** Running the Text-Size Patcher *)
Section TextSizeClaims.
Import Re Sys.

(** C1.  On a page that holds the anchor twice, [add_text_size_control]
    replaces both occurrences ([re.sub] is called without [count]): the
    content written back holds two copies of the snippet, not one. *)
Theorem two_anchors_get_two_snippets :
  let f := [lit "index.html"] in
  let w := World {[ f := two_anchor_page ]} [] in
  exists w' c',
    TextSize.add_text_size_control f w = Some (true, w') /\
    files w' !! f = Some c' /\
    c' = TextSize.TEXT_SIZE_CONTROL ++ anchor ++
         TextSize.TEXT_SIZE_CONTROL ++ [10%N] ++ anchor /\
    occurrences TextSize.TEXT_SIZE_CONTROL c' = 2.
Proof.
  intros f w.
  exists (perform f (TextSize.plan two_anchor_page) w).
  exists (content_after (TextSize.plan two_anchor_page) two_anchor_page).
  split; [|split; [|split]].
  - now rewrite (add_text_size_control_run f w two_anchor_page).
  - now apply files_perform.
  - vm_compute. reflexivity.
  - vm_compute. reflexivity.
Qed.

(** The three branches of [add_text_size_control]. *)
Lemma text_size_plan_marked (c : list N) :
  contains (lit "text-size-control") c = true ->
  TextSize.plan c =
  Outcome false None Check_mark (lit "already has text-size control").
Proof. intros H. unfold TextSize.plan. now rewrite H. Qed.

Lemma text_size_plan_patched (c : list N) :
  contains (lit "text-size-control") c = false ->
  search TextSize.pattern c <> None ->
  TextSize.plan c =
  Outcome true (Some (sub TextSize.pattern TextSize.replacement c 0)) Check_mark
          (lit "added text-size control").
Proof.
  intros H Hs. unfold TextSize.plan. rewrite H.
  destruct (search TextSize.pattern c); [reflexivity | congruence].
Qed.

Lemma text_size_plan_no_anchor (c : list N) :
  contains (lit "text-size-control") c = false ->
  search TextSize.pattern c = None ->
  TextSize.plan c =
  Outcome false None Cross_mark (lit "could not find insertion point").
Proof. intros H Hs. unfold TextSize.plan. now rewrite H, Hs. Qed.

(** C2, as amended.  Running the Text-Size Patcher a second time on a file
    never changes it again and returns [False].  The second run takes the
    already-patched branch when the first run wrote the file or the marker
    was there from the start; on a page without marker and without anchor
    both runs report that no insertion point was found. *)
Theorem text_size_second_run_skips (w : world) (f : list (list N)) (c : list N) :
  files w !! f = Some c ->
  exists b w1 w2,
    TextSize.add_text_size_control f w = Some (b, w1) /\
    TextSize.add_text_size_control f w1 = Some (false, w2) /\
    files w2 = files w1 /\
    console w2 = console w1 ++
      [if b || contains (lit "text-size-control") c
       then Status Check_mark f (lit "already has text-size control")
       else Status Cross_mark f (lit "could not find insertion point")].
Proof.
  intros Hf.
  assert (H1 : files (perform f (TextSize.plan c) w) !! f
               = Some (content_after (TextSize.plan c) c))
    by now apply files_perform.
  exists (returned (TextSize.plan c)), (perform f (TextSize.plan c) w),
    (perform f (TextSize.plan (content_after (TextSize.plan c) c))
             (perform f (TextSize.plan c) w)).
  rewrite (add_text_size_control_run f w c Hf).
  rewrite (add_text_size_control_run f _ _ H1). clear H1.
  destruct (contains (lit "text-size-control") c) eqn:Hm.
  - rewrite (text_size_plan_marked c Hm). cbn [content_after written returned orb].
    rewrite (text_size_plan_marked c Hm). auto.
  - destruct (search TextSize.pattern c) as [m|] eqn:Hs.
    + assert (Hs' : search TextSize.pattern c <> None) by congruence.
      rewrite (text_size_plan_patched c Hm Hs').
      cbn [content_after written returned orb].
      rewrite (text_size_plan_marked _ (text_size_sub_has_marker c Hs')). auto.
    + rewrite (text_size_plan_no_anchor c Hm Hs).
      cbn [content_after written returned orb].
      rewrite (text_size_plan_no_anchor c Hm Hs). auto.
Qed.

Lemma text_size_second_run_skips_witness :
  let f := [lit "index.html"] in
  let w := World {[ f := anchor ]} [] in
  files w !! f = Some anchor /\
  exists b w1 w2,
    TextSize.add_text_size_control f w = Some (b, w1) /\
    TextSize.add_text_size_control f w1 = Some (false, w2) /\
    files w2 = files w1 /\
    console w2 = console w1 ++
      [if b || contains (lit "text-size-control") anchor
       then Status Check_mark f (lit "already has text-size control")
       else Status Cross_mark f (lit "could not find insertion point")].
Proof.
  intros f w. split; [reflexivity|].
  apply (text_size_second_run_skips w f anchor). reflexivity.
Defined.

(** C2 as stated fails on a page without the anchor: the second run does not
    take the already-patched branch there, it reports once more that no
    insertion point was found. *)
Lemma text_size_second_run_without_anchor :
  let f := [lit "index.html"] in
  let w := World {[ f := lit "<html></html>" ]} [] in
  exists w1 w2,
    TextSize.add_text_size_control f w = Some (false, w1) /\
    TextSize.add_text_size_control f w1 = Some (false, w2) /\
    console w2 = console w1 ++
      [Status Cross_mark f (lit "could not find insertion point")] /\
    console w2 <> console w1 ++
      [Status Check_mark f (lit "already has text-size control")].
Proof.
  intros f w.
  set (c := lit "<html></html>").
  exists (perform f (TextSize.plan c) w).
  exists (perform f (TextSize.plan c) (perform f (TextSize.plan c) w)).
  split; [|split; [|split]].
  - now rewrite (add_text_size_control_run f w c).
  - now rewrite (add_text_size_control_run f _ c).
  - vm_compute. reflexivity.
  - vm_compute. discriminate.
Qed.

End TextSizeClaims.

(** ** The Dark-Mode Patcher: branches *)
Section DarkModeFacts.
Import Re Sys.

(** The five branches of [add_dark_mode_toggle]. *)
Lemma dark_plan_toggled (c : list N) :
  contains marker_toggle c = true ->
  DarkMode.plan c =
  Outcome false None Check_mark (lit "already has dark mode toggle").
Proof. intros H. unfold DarkMode.plan. fold marker_toggle. now rewrite H. Qed.

Lemma dark_plan_missing (c : list N) :
  contains marker_toggle c = false -> contains marker_widget c = false ->
  DarkMode.plan c =
  Outcome false None Cross_mark (lit "missing text-size-control, skipping").
Proof.
  intros H1 H2. unfold DarkMode.plan. fold marker_toggle marker_widget.
  now rewrite H1, H2.
Qed.

Lemma dark_plan_wrap (c : list N) :
  contains marker_toggle c = false -> contains marker_widget c = true ->
  contains marker_wrapper c = false ->
  DarkMode.plan c =
  Outcome true (Some (add_script (wrap c))) Check_mark (lit "added dark mode toggle").
Proof.
  intros H1 H2 H3. unfold DarkMode.plan.
  fold marker_toggle marker_widget marker_wrapper. now rewrite H1, H2, H3.
Qed.

Lemma dark_plan_button (c : list N) :
  contains marker_toggle c = false -> contains marker_widget c = true ->
  contains marker_wrapper c = true -> contains marker_button c = false ->
  DarkMode.plan c =
  Outcome true
    (Some (if contains marker_wrapper_close (add_button c)
           then add_button c else add_script (add_button c)))
    Check_mark (lit "added theme toggle button").
Proof.
  intros H1 H2 H3 H4. unfold DarkMode.plan.
  fold marker_toggle marker_widget marker_wrapper marker_button.
  rewrite H1, H2, H3, H4. cbn [negb]. fold (add_button c).
  fold marker_wrapper_close.
  now destruct (contains marker_wrapper_close (add_button c)).
Qed.

Lemma dark_plan_complete (c : list N) :
  contains marker_toggle c = false -> contains marker_widget c = true ->
  contains marker_wrapper c = true -> contains marker_button c = true ->
  DarkMode.plan c = Outcome false None Check_mark (lit "already complete").
Proof.
  intros H1 H2 H3 H4. unfold DarkMode.plan.
  fold marker_toggle marker_widget marker_wrapper marker_button.
  now rewrite H1, H2, H3, H4.
Qed.

(** A substitution with [count=1] leaves the content alone or brings in the
    text of its template. *)
Lemma sub_once_brings mk t p repl (s : list N) :
  In (Text t) repl -> contains mk t = true ->
  sub p repl s 1 = s \/ contains mk (sub p repl s 1) = true.
Proof.
  intros Hin Hmk.
  destruct (sub_once_cases p repl s)
    as [[_ ->] | (_ & pre & segs & r & _ & _ & ->)];
    [now left | right].
  apply contains_app_r, contains_app_l, (contains_expand mk t); assumption.
Qed.

Lemma wrap_brings_toggle (c : list N) :
  wrap c = c \/ contains marker_toggle (wrap c) = true.
Proof.
  eapply sub_once_brings; [right; left; reflexivity | vm_compute; reflexivity].
Qed.

Lemma add_script_brings_toggle (c : list N) :
  add_script c = c \/ contains marker_toggle (add_script c) = true.
Proof.
  eapply (sub_once_brings _ DarkMode.DARK_MODE_TOGGLE_AND_SCRIPT);
    [right; right; left; reflexivity | vm_compute; reflexivity].
Qed.

Lemma add_button_brings_toggle (c : list N) :
  add_button c = c \/ contains marker_toggle (add_button c) = true.
Proof.
  eapply sub_once_brings; [right; left; reflexivity | vm_compute; reflexivity].
Qed.

(** Whatever the branch, the file is left as it was or ends up holding the
    marker of state A. *)
Lemma dark_plan_after (c : list N) :
  content_after (DarkMode.plan c) c = c \/
  contains marker_toggle (content_after (DarkMode.plan c) c) = true.
Proof.
  destruct (contains marker_toggle c) eqn:H1;
    [rewrite (dark_plan_toggled c H1); now left|].
  destruct (contains marker_widget c) eqn:H2;
    [|rewrite (dark_plan_missing c H1 H2); now left].
  destruct (contains marker_wrapper c) eqn:H3.
  - destruct (contains marker_button c) eqn:H4;
      [rewrite (dark_plan_complete c H1 H2 H3 H4); now left|].
    rewrite (dark_plan_button c H1 H2 H3 H4). cbn [content_after written].
    destruct (add_button_brings_toggle c) as [Hb | Hb].
    + destruct (contains marker_wrapper_close (add_button c)); [now left|].
      rewrite Hb. apply add_script_brings_toggle.
    + right. destruct (contains marker_wrapper_close (add_button c)); [exact Hb|].
      destruct (add_script_brings_toggle (add_button c)) as [-> | Hs]; assumption.
  - rewrite (dark_plan_wrap c H1 H2 H3). cbn [content_after written].
    destruct (add_script_brings_toggle (wrap c)) as [-> | Hs]; [|now right].
    apply wrap_brings_toggle.
Qed.

End DarkModeFacts.

(** ** Running the Dark-Mode Patcher *)
Section DarkModeClaims.
Import Re Sys.

(** C3.  Running the Dark-Mode Patcher twice on a file leaves the content
    the first run left. *)
Theorem dark_mode_idempotent (w : world) (f : list (list N)) (c : list N) :
  files w !! f = Some c ->
  exists b1 w1 b2 w2,
    DarkMode.add_dark_mode_toggle f w = Some (b1, w1) /\
    DarkMode.add_dark_mode_toggle f w1 = Some (b2, w2) /\
    files w2 = files w1.
Proof.
  intros Hf.
  set (c1 := content_after (DarkMode.plan c) c).
  assert (H1 : files (perform f (DarkMode.plan c) w) !! f = Some c1)
    by now apply files_perform.
  exists (returned (DarkMode.plan c)), (perform f (DarkMode.plan c) w),
    (returned (DarkMode.plan c1)),
    (perform f (DarkMode.plan c1) (perform f (DarkMode.plan c) w)).
  split; [now apply add_dark_mode_toggle_run|].
  split; [now apply add_dark_mode_toggle_run|].
  destruct (dark_plan_after c) as [Hsame | Htoggle];
    [fold c1 in Hsame | fold c1 in Htoggle].
  - rewrite Hsame. subst c1. unfold perform, content_after in *. simpl.
    destruct (written (DarkMode.plan c)) as [c'|]; [|reflexivity].
    apply insert_insert_eq.
  - apply files_perform_skip. now rewrite (dark_plan_toggled c1 Htoggle).
Qed.

Lemma dark_mode_idempotent_witness :
  let f := [lit "index.html"] in
  let w := World {[ f := patched_page ]} [] in
  files w !! f = Some patched_page /\
  exists b1 w1 b2 w2,
    DarkMode.add_dark_mode_toggle f w = Some (b1, w1) /\
    DarkMode.add_dark_mode_toggle f w1 = Some (b2, w2) /\
    files w2 = files w1.
Proof.
  intros f w. split; [reflexivity|].
  apply (dark_mode_idempotent w f patched_page). reflexivity.
Defined.

(** C4, as amended.  A file without the opening tag of the widget is left
    untouched by [add_dark_mode_toggle], which returns [False]; it reports
    the missing prerequisite unless the content holds "toggleTheme", which
    is checked first and reported as an existing toggle.  A file without
    marker in which [re.search] finds no anchor is left untouched by
    [add_text_size_control], which returns [False] and reports that there is
    no insertion point.  Neither call fails. *)
Theorem precondition_not_met_skips (w : world) (f : list (list N)) (c : list N) :
  files w !! f = Some c ->
  (contains marker_widget c = false ->
   exists w',
     DarkMode.add_dark_mode_toggle f w = Some (false, w') /\
     files w' = files w /\
     console w' = console w ++
       [if contains marker_toggle c
        then Status Check_mark f (lit "already has dark mode toggle")
        else Status Cross_mark f (lit "missing text-size-control, skipping")]) /\
  (contains marker_text_size c = false -> search TextSize.pattern c = None ->
   exists w',
     TextSize.add_text_size_control f w = Some (false, w') /\
     files w' = files w /\
     console w' = console w ++
       [Status Cross_mark f (lit "could not find insertion point")]).
Proof.
  intros Hf. split.
  - intros Hw. exists (perform f (DarkMode.plan c) w).
    rewrite (add_dark_mode_toggle_run f w c Hf).
    destruct (contains marker_toggle c) eqn:Ht.
    + rewrite (dark_plan_toggled c Ht). auto.
    + rewrite (dark_plan_missing c Ht Hw). auto.
  - intros Hm Hs. exists (perform f (TextSize.plan c) w).
    rewrite (add_text_size_control_run f w c Hf).
    rewrite (text_size_plan_no_anchor c Hm Hs). auto.
Qed.

Lemma precondition_not_met_skips_witness :
  let f := [lit "index.html"] in
  let c := lit "<html><body></body></html>" in
  let w := World {[ f := c ]} [] in
  files w !! f = Some c /\
  (exists w',
     DarkMode.add_dark_mode_toggle f w = Some (false, w') /\
     files w' = files w /\
     console w' =
       [Status Cross_mark f (lit "missing text-size-control, skipping")]) /\
  (exists w',
     TextSize.add_text_size_control f w = Some (false, w') /\
     files w' = files w /\
     console w' = [Status Cross_mark f (lit "could not find insertion point")]).
Proof.
  intros f c w.
  split; [reflexivity|].
  destruct (precondition_not_met_skips w f c eq_refl) as [Hd Ht].
  split; [apply Hd | apply Ht]; vm_compute; reflexivity.
Defined.

(** C4 as stated fails on a file that lacks the widget but holds
    "toggleTheme": the outcome reported is the existing toggle, not the
    missing prerequisite. *)
Lemma toggle_reported_before_prerequisite :
  let f := [lit "index.html"] in
  let c := lit "<script>function toggleTheme() {}</script>" in
  let w := World {[ f := c ]} [] in
  contains marker_widget c = false /\
  exists w',
    DarkMode.add_dark_mode_toggle f w = Some (false, w') /\
    console w' = [Status Check_mark f (lit "already has dark mode toggle")] /\
    console w' <> [Status Cross_mark f (lit "missing text-size-control, skipping")].
Proof.
  intros f c w. split; [vm_compute; reflexivity|].
  exists (perform f (DarkMode.plan c) w).
  split; [now rewrite (add_dark_mode_toggle_run f w c)|].
  split; [vm_compute; reflexivity | vm_compute; discriminate].
Qed.

(** C7, as amended.  The "already complete" branch is taken exactly on a
    content that holds the widget tag, the wrapper tag and the button marker
    but not "toggleTheme" (a theme-toggle button wired to something else).
    The patcher never produces such a content itself: a file that is in
    this state after a run was in it before. *)
Theorem already_complete_reached_iff (w : world) (f : list (list N)) (c : list N) :
  files w !! f = Some c ->
  exists b w' c',
    DarkMode.add_dark_mode_toggle f w = Some (b, w') /\
    files w' !! f = Some c' /\
    (console w' = console w ++ [Status Check_mark f (lit "already complete")]
     <-> button_without_function c) /\
    (button_without_function c' -> button_without_function c).
Proof.
  intros Hf.
  exists (returned (DarkMode.plan c)), (perform f (DarkMode.plan c) w),
    (content_after (DarkMode.plan c) c).
  split; [now apply add_dark_mode_toggle_run|].
  split; [now apply files_perform|]. split.
  - unfold button_without_function, perform. cbn [console].
    assert (Hne : forall g m, m <> lit "already complete" ->
              console w ++ [Status g f m] =
              console w ++ [Status Check_mark f (lit "already complete")] -> False).
    { intros g m Hm H. apply app_inv_head in H. congruence. }
    destruct (contains marker_toggle c) eqn:H1.
    { rewrite (dark_plan_toggled c H1). cbn [mark message]. split.
      - intros H. exfalso. revert H. apply Hne. vm_compute. discriminate.
      - intros [? _]. discriminate. }
    destruct (contains marker_widget c) eqn:H2.
    2:{ rewrite (dark_plan_missing c H1 H2). cbn [mark message]. split.
        - intros H. exfalso. revert H. apply Hne. vm_compute. discriminate.
        - intros (_ & ? & _). discriminate. }
    destruct (contains marker_wrapper c) eqn:H3.
    2:{ rewrite (dark_plan_wrap c H1 H2 H3). cbn [mark message]. split.
        - intros H. exfalso. revert H. apply Hne. vm_compute. discriminate.
        - intros (_ & _ & ? & _). discriminate. }
    destruct (contains marker_button c) eqn:H4.
    { rewrite (dark_plan_complete c H1 H2 H3 H4). cbn [mark message]. tauto. }
    rewrite (dark_plan_button c H1 H2 H3 H4). cbn [mark message]. split.
    + intros H. exfalso. revert H. apply Hne. vm_compute. discriminate.
    + intros (_ & _ & _ & ?). discriminate.
  - destruct (dark_plan_after c) as [-> | Ht]; [tauto|].
    intros [Hno _]. congruence.
Qed.

Lemma already_complete_reached_iff_witness :
  let f := [lit "index.html"] in
  let w := World {[ f := patched_page ]} [] in
  files w !! f = Some patched_page /\
  exists b w' c',
    DarkMode.add_dark_mode_toggle f w = Some (b, w') /\
    files w' !! f = Some c' /\
    (console w' = console w ++ [Status Check_mark f (lit "already complete")]
     <-> button_without_function patched_page) /\
    (button_without_function c' -> button_without_function patched_page).
Proof.
  intros f w. split; [reflexivity|].
  apply (already_complete_reached_iff w f patched_page). reflexivity.
Defined.

(** C7 as stated fails: a page whose theme-toggle button calls another
    handler passes the first three checks, holds the button marker, and is
    reported as already complete. *)
Lemma already_complete_reached :
  let f := [lit "index.html"] in
  let c := lit "<div class=`site-controls`>
  <button class=`theme-toggle` onclick=`switchTheme()`></button>
  <div class=`text-size-control`></div>
</div>" in
  let w := World {[ f := c ]} [] in
  contains marker_toggle c = false /\ contains marker_widget c = true /\
  contains marker_wrapper c = true /\ contains marker_button c = true /\
  DarkMode.add_dark_mode_toggle f w =
  Some (false, World {[ f := c ]} [Status Check_mark f (lit "already complete")]).
Proof.
  intros f c w. repeat split; vm_compute; reflexivity.
Qed.

(** C10.  There is a page with the wrapper tag and the widget tag, without
    button marker and without "toggleTheme", in which the wrapper tag is not
    followed by the widget tag and the wrapper-close marker is present:
    [add_dark_mode_toggle] writes back exactly what it read, returns [True],
    reports an added button, and [main] counts the file as updated. *)
Theorem unchanged_rewrite_counted_as_update :
  exists c : list N,
    contains marker_wrapper c = true /\ contains marker_widget c = true /\
    contains marker_button c = false /\ contains marker_toggle c = false /\
    search DarkMode.button_pattern c = None /\
    contains marker_wrapper_close c = true /\
    let f := [lit "guide.html"] in
    let w := World {[ f := c ]} [] in
    written (DarkMode.plan c) = Some c /\
    DarkMode.add_dark_mode_toggle f w =
      Some (true, World {[ f := c ]}
                        [Status Check_mark f (lit "added theme toggle button")]) /\
    DarkMode.main w =
      Some (tt, World {[ f := c ]}
                      [Found 1; Blank;
                       Status Check_mark f (lit "added theme toggle button");
                       Blank; Updated 1; Skipped 0]).
Proof.
  exists (lit "<div class=`site-controls`>
  <h2>Controls</h2>
  <div class=`text-size-control`></div>
  </div><!-- /site-controls -->").
  repeat split; vm_compute; reflexivity.
Qed.

End DarkModeClaims.

(** ** The sweep over the tree *)
Section MainFacts.
Import Re Sys.

Lemma html_files_exist (w : world) f :
  In f (html_files w) -> is_Some (files w !! f).
Proof.
  unfold html_files. rewrite !filter_In, in_map_iff.
  intros [[[[g c] [Hg Hin]] _] _]. simpl in Hg. subst g.
  apply list_elem_of_In, elem_of_map_to_list in Hin. eauto.
Qed.

Lemma html_files_exclusion (w : world) f :
  name f = lit "text-size-control.html" -> ~ In f (html_files w).
Proof.
  intros Hname. unfold html_files. rewrite filter_In. intros [_ H].
  apply negb_true_iff in H. rewrite Hname in H.
  now rewrite (proj2 (str_eqb_eq _ _) eq_refl) in H.
Qed.

Lemma insert_sorted_In f g l : In g (insert_sorted f l) <-> g = f \/ In g l.
Proof.
  induction l as [|h l IH]; simpl; [intuition|].
  destruct (path_leb f h); simpl; [intuition|]. rewrite IH. intuition.
Qed.

Lemma sorted_In g l : In g (sorted l) <-> In g l.
Proof.
  induction l as [|f l IH]; simpl; [tauto|].
  rewrite insert_sorted_In, IH. intuition.
Qed.

Lemma sorted_length l : length (sorted l) = length l.
Proof.
  assert (H : forall f l, length (insert_sorted f l) = S (length l)).
  { intros f l0. induction l0 as [|h l0 IH]; simpl; [reflexivity|].
    destruct (path_leb f h); simpl; [reflexivity | now rewrite IH]. }
  induction l as [|f l IH]; simpl; [reflexivity|]. now rewrite H, IH.
Qed.

(** The loop over files that exist: it ends, counts every file once, changes
    no other file and prints only about the files of its list. *)
Section Loop.
Variable patch : list (list N) -> IO bool.
Variable plan : list N -> outcome.
Hypothesis patch_run : forall f w c,
  files w !! f = Some c ->
  patch f w = Some (returned (plan c), perform f (plan c) w).

Lemma count_loop_runs (l : list (list (list N))) : forall (w : world) updated skipped,
  (forall f, In f l -> is_Some (files w !! f)) ->
  exists updated' skipped' w',
    count_loop patch l updated skipped w = Some ((updated', skipped'), w') /\
    updated' + skipped' = updated + skipped + length l /\
    (forall g, ~ In g l -> files w' !! g = files w !! g) /\
    (forall ln, In ln (console w') ->
       In ln (console w) \/ exists g h msg, ln = Status g h msg /\ In h l).
Proof.
  induction l as [|f l IH]; intros w updated skipped Hex.
  - exists updated, skipped, w. simpl. repeat split; auto; lia.
  - destruct (Hex f (or_introl eq_refl)) as [c Hc].
    assert (Hex' : forall g, In g l -> is_Some (files (perform f (plan c) w) !! g)).
    { intros g Hg. destruct (decide (f = g)) as [<-|Hne].
      - rewrite (files_perform f _ w c Hc). eauto.
      - rewrite (files_perform_other f g _ w Hne). apply Hex. now right. }
    cbn [count_loop]. unfold mbind at 1, IO_bind at 1.
    rewrite (patch_run f w c Hc).
    destruct (returned (plan c)).
    + destruct (IH (perform f (plan c) w) (updated + 1) skipped Hex')
        as (u' & s' & w' & -> & Hsum & Hfiles & Hlines).
      exists u', s', w'. split; [reflexivity|]. split; [simpl; lia|]. split.
      * intros g Hg. rewrite Hfiles by (intros ?; apply Hg; now right).
        apply files_perform_other. intros ->. apply Hg. now left.
      * intros ln Hln. destruct (Hlines ln Hln) as [Hin | (g & h & msg & -> & Hh)].
        -- unfold perform in Hin. cbn [console] in Hin.
           apply in_app_or in Hin as [Hin | [<- | []]]; [now left | right].
           exists (mark (plan c)), f, (message (plan c)). split; [easy | now left].
        -- right. exists g, h, msg. split; [easy | now right].
    + destruct (IH (perform f (plan c) w) updated (skipped + 1) Hex')
        as (u' & s' & w' & -> & Hsum & Hfiles & Hlines).
      exists u', s', w'. split; [reflexivity|]. split; [simpl; lia|]. split.
      * intros g Hg. rewrite Hfiles by (intros ?; apply Hg; now right).
        apply files_perform_other. intros ->. apply Hg. now left.
      * intros ln Hln. destruct (Hlines ln Hln) as [Hin | (g & h & msg & -> & Hh)].
        -- unfold perform in Hin. cbn [console] in Hin.
           apply in_app_or in Hin as [Hin | [<- | []]]; [now left | right].
           exists (mark (plan c)), f, (message (plan c)). split; [easy | now left].
        -- right. exists g, h, msg. split; [easy | now right].
Qed.

(** A whole sweep, for a [main] built on [patch]. *)
Lemma sweep_runs (w : world) (lines : list line) :
  exists updated skipped w',
    count_loop patch (sorted (html_files w)) 0 0 (World (files w) lines)
    = Some ((updated, skipped), w') /\
    updated + skipped = length (html_files w) /\
    (forall g, ~ In g (html_files w) -> files w' !! g = files w !! g) /\
    (forall g h msg, In (Status g h msg) (console w') ->
       In (Status g h msg) lines \/ In h (html_files w)).
Proof.
  destruct (count_loop_runs (sorted (html_files w)) (World (files w) lines) 0 0)
    as (u & s & w' & Hrun & Hsum & Hfiles & Hlines).
  { intros f Hf. apply (proj1 (sorted_In _ _)) in Hf. now apply html_files_exist. }
  exists u, s, w'. split; [exact Hrun|]. split; [rewrite sorted_length in Hsum; lia|].
  split.
  - intros g Hg. apply Hfiles. now rewrite sorted_In.
  - intros g h msg Hin.
    destruct (Hlines _ Hin) as [Hold | (g' & h' & msg' & [= -> -> ->] & Hh)].
    + now left.
    + right. now apply sorted_In.
Qed.

End Loop.

(** [main] is the sweep between its header and its summary. *)
Lemma text_size_main_run (w : world) :
  TextSize.main w =
  match count_loop TextSize.add_text_size_control (sorted (html_files w)) 0 0
          (World (files w)
                 ((console w ++ [Found (length (html_files w))]) ++ [Blank])) with
  | Some ((updated, skipped), w') =>
      Some (tt, World (files w')
                      (((console w' ++ [Blank]) ++ [Updated updated])
                       ++ [Skipped skipped]))
  | None => None
  end.
Proof.
  unfold TextSize.main, mbind, IO_bind, rglob_html, print. cbn [files console].
  fold (html_files w).
  destruct (count_loop _ _ _ _ _) as [[[u s] w']|]; reflexivity.
Qed.

Lemma dark_mode_main_run (w : world) :
  DarkMode.main w =
  match count_loop DarkMode.add_dark_mode_toggle (sorted (html_files w)) 0 0
          (World (files w)
                 ((console w ++ [Found (length (html_files w))]) ++ [Blank])) with
  | Some ((updated, skipped), w') =>
      Some (tt, World (files w')
                      (((console w' ++ [Blank]) ++ [Updated updated])
                       ++ [Skipped skipped]))
  | None => None
  end.
Proof.
  unfold DarkMode.main, mbind, IO_bind, rglob_html, print. cbn [files console].
  fold (html_files w).
  destruct (count_loop _ _ _ _ _) as [[[u s] w']|]; reflexivity.
Qed.

(** What a sweep guarantees, for both scripts. *)
Lemma main_runs (main : IO unit) (patch : list (list N) -> IO bool)
    (plan : list N -> outcome) (w : world) :
  (forall f w c, files w !! f = Some c ->
     patch f w = Some (returned (plan c), perform f (plan c) w)) ->
  (main w =
   match count_loop patch (sorted (html_files w)) 0 0
           (World (files w)
                  ((console w ++ [Found (length (html_files w))]) ++ [Blank])) with
   | Some ((updated, skipped), w') =>
       Some (tt, World (files w')
                       (((console w' ++ [Blank]) ++ [Updated updated])
                        ++ [Skipped skipped]))
   | None => None
   end) ->
  exists w',
    main w = Some (tt, w') /\
    (forall g, ~ In g (html_files w) -> files w' !! g = files w !! g) /\
    (forall g h msg, In (Status g h msg) (console w') ->
       In (Status g h msg) (console w) \/ In h (html_files w)).
Proof.
  intros Hrun ->.
  destruct (sweep_runs patch plan Hrun w
              ((console w ++ [Found (length (html_files w))]) ++ [Blank]))
    as (u & s & w' & -> & _ & Hfiles & Hlines).
  eexists. split; [reflexivity|]. cbn [files console]. split; [exact Hfiles|].
  intros g h msg Hin.
  repeat (apply in_app_or in Hin as [Hin | Hin];
          [| simpl in Hin; destruct Hin as [? | []]; discriminate]).
  destruct (Hlines g h msg Hin) as [Hold | ?]; [|now right].
  repeat (apply in_app_or in Hold as [Hold | Hold];
          [| simpl in Hold; destruct Hold as [? | []]; discriminate]).
  now left.
Qed.

(** C9.  A file named text-size-control.html, in whatever directory of the
    tree, is not in the list either [main] processes; both sweeps end, leave
    that file as it was, and print no line about it. *)
Theorem excluded_file_untouched (w : world) (f : list (list N)) :
  name f = lit "text-size-control.html" ->
  ~ In f (html_files w) /\
  (exists w',
     TextSize.main w = Some (tt, w') /\
     files w' !! f = files w !! f /\
     forall g msg, In (Status g f msg) (console w') ->
                   In (Status g f msg) (console w)) /\
  (exists w',
     DarkMode.main w = Some (tt, w') /\
     files w' !! f = files w !! f /\
     forall g msg, In (Status g f msg) (console w') ->
                   In (Status g f msg) (console w)).
Proof.
  intros Hname. pose proof (html_files_exclusion w f Hname) as Hout.
  split; [exact Hout|]. split.
  - destruct (main_runs TextSize.main _ _ w add_text_size_control_run
                (text_size_main_run w)) as (w' & Hmain & Hfiles & Hlines).
    exists w'. split; [exact Hmain|]. split; [now apply Hfiles|].
    intros g msg Hin. destruct (Hlines g f msg Hin); [easy | contradiction].
  - destruct (main_runs DarkMode.main _ _ w add_dark_mode_toggle_run
                (dark_mode_main_run w)) as (w' & Hmain & Hfiles & Hlines).
    exists w'. split; [exact Hmain|]. split; [now apply Hfiles|].
    intros g msg Hin. destruct (Hlines g f msg Hin); [easy | contradiction].
Qed.

Lemma excluded_file_untouched_witness :
  let f := [lit "tools"; lit "text-size-control.html"] in
  name f = lit "text-size-control.html" /\
  ~ In f (html_files docs_tree) /\
  (exists w',
     TextSize.main docs_tree = Some (tt, w') /\
     files w' !! f = files docs_tree !! f /\
     forall g msg, In (Status g f msg) (console w') ->
                   In (Status g f msg) (console docs_tree)) /\
  (exists w',
     DarkMode.main docs_tree = Some (tt, w') /\
     files w' !! f = files docs_tree !! f /\
     forall g msg, In (Status g f msg) (console w') ->
                   In (Status g f msg) (console docs_tree)).
Proof.
  intros f. split; [reflexivity|].
  apply (excluded_file_untouched docs_tree f). reflexivity.
Defined.

End MainFacts.

(** ** The Dark-Mode Patcher: what the substitutions do *)
Section DarkModeShapes.
Import Re Sys.
#[local] Arguments lit : simpl never.

Lemma snippet_parts :
  TextSize.TEXT_SIZE_CONTROL =
  (DarkMode.nl ++ lit "  " ++ comment_line ++ DarkMode.nl ++ lit "  ") ++
  widget_markup ++ DarkMode.nl.
Proof. vm_compute. reflexivity. Qed.

Lemma wrap_cases (c : list N) :
  search DarkMode.wrap_pattern c = None /\ wrap c = c \/
  search DarkMode.wrap_pattern c <> None /\
  exists a g b,
    forallb is_space g = true /\
    c = (a ++ comment_line ++ g) ++ marker_widget ++ b /\
    wrap c = (a ++ comment_line ++ g) ++ wrapper_markup ++ marker_widget ++ b.
Proof.
  destruct (sub_once_cases DarkMode.wrap_pattern DarkMode.wrap_replacement c)
    as [H | (Hs & pre & segs & r & Hok & Hc & Hsub)]; [now left | right].
  split; [exact Hs|].
  cbn in Hok.
  inversion Hok as [|? l1 ? segs1 Hl1 Hok1]; subst.
  inversion Hok1 as [|? g ? segs2 Hg Hok2]; subst.
  inversion Hok2 as [|? l2 ? segs3 Hl2 Hok3]; subst.
  inversion Hok3; subst. simpl in Hl1, Hl2, Hg. subst l1 l2.
  exists pre, g, r. split; [exact Hg|]. split.
  - cbn [concat]. now rewrite app_nil_r, <- !app_assoc.
  - unfold wrap. rewrite Hsub. cbn. rewrite !app_nil_r, <- !app_assoc.
    rewrite (app_assoc wrapper_markup marker_widget r). now do 3 f_equal.
Qed.


Lemma add_script_cases (c : list N) :
  search DarkMode.script_pattern c = None /\ add_script c = c \/
  search DarkMode.script_pattern c <> None /\
  exists a g b,
    forallb is_space g = true /\
    c = (a ++ script_close) ++ g ++ icons_script ++ b /\
    add_script c = (a ++ script_close) ++ script_block ++ icons_script ++ b.
Proof.
  destruct (sub_once_cases DarkMode.script_pattern DarkMode.script_replacement c)
    as [H | (Hs & pre & segs & r & Hok & Hc & Hsub)]; [now left | right].
  split; [exact Hs|].
  cbn in Hok.
  inversion Hok as [|? g1 ? segs1 Hg1 Hok1]; subst.
  inversion Hok1 as [|? l1 ? segs2 Hl1 Hok2]; subst.
  inversion Hok2 as [|? g2 ? segs3 Hg2 Hok3]; subst.
  inversion Hok3 as [|? l2 ? segs4 Hl2 Hok4]; subst.
  inversion Hok4 as [|? g3 ? segs5 Hg3 Hok5]; subst.
  inversion Hok5 as [|? l3 ? segs6 Hl3 Hok6]; subst.
  inversion Hok6 as [|? g ? segs7 Hg Hok7]; subst.
  inversion Hok7 as [|? l4 ? segs8 Hl4 Hok8]; subst.
  inversion Hok8; subst. simpl in Hl1, Hl2, Hl3, Hl4, Hg. subst l1 l2 l3 l4.
  exists (pre ++ g1 ++ lit "window.adjustTextSize = adjustTextSize;" ++ g2 ++
          lit "})();" ++ g3), g, r.
  split; [exact Hg|]. split.
  - cbn [concat]. now rewrite app_nil_r, <- !app_assoc.
  - unfold add_script. rewrite Hsub. cbn.
    unfold script_block, script_close, icons_script.
    now rewrite !app_nil_r, <- !app_assoc.
Qed.

Lemma stable_inv m :
  stable m = true ->
  (exists a m', m = a :: m' /\ is_space a = false) /\
  clear_right m marker_widget = true /\ clear_right m wrapper_markup = true /\
  clear_right m button_markup = true /\
  clear_left m script_close = true /\ clear_right m icons_script = true.
Proof.
  unfold stable. rewrite !andb_true_iff. intros [[[[[H0 H1] H2] H3] H4] H5].
  repeat split; try assumption.
  destruct m as [|a m']; [discriminate|]. exists a, m'.
  now apply negb_true_iff in H0.
Qed.

Lemma wrap_count m (c : list N) :
  stable m = true ->
  occurrences m (wrap c) =
  occurrences m c +
  match search DarkMode.wrap_pattern c with
  | Some _ => occurrences m wrapper_markup
  | None => 0
  end.
Proof.
  intros (_ & Hw & Hi & _)%stable_inv.
  destruct (wrap_cases c) as [[-> ->] | (Hs & a & g & b & Hg & Hc & ->)]; [lia|].
  destruct (search DarkMode.wrap_pattern c); [|congruence].
  rewrite Hc. now apply occurrences_insert.
Qed.


Lemma add_script_count m (c : list N) :
  stable m = true ->
  occurrences m (add_script c) =
  occurrences m c +
  match search DarkMode.script_pattern c with
  | Some _ => occurrences m script_block
  | None => 0
  end.
Proof.
  intros ((a0 & m' & -> & Ha) & _ & _ & _ & Hl & Hr)%stable_inv.
  destruct (add_script_cases c) as [[-> ->] | (Hs & a & g & b & Hg & Hc & ->)]; [lia|].
  destruct (search DarkMode.script_pattern c); [|congruence].
  rewrite Hc. now apply occurrences_fill_gap.
Qed.

End DarkModeShapes.


(** ** States C and D of the Dark-Mode Patcher *)
Section DarkModeStates.
Import Re Sys.
#[local] Arguments lit : simpl never.





Lemma snippet_tail :
  TextSize.TEXT_SIZE_CONTROL =
  snippet_before_tail ++ concat script_tail ++ DarkMode.nl.
Proof. vm_compute. reflexivity. Qed.

Lemma snippet_head :
  TextSize.TEXT_SIZE_CONTROL =
  (DarkMode.nl ++ lit "  ") ++
  concat [comment_line; DarkMode.nl ++ lit "  "; marker_widget] ++
  skipn (length marker_widget) widget_markup ++ DarkMode.nl.
Proof. vm_compute. reflexivity. Qed.

(** The widget tag begins nowhere in the end of the widget script followed
    by white space and the icon script. *)
Lemma widget_tag_not_in_tail (g : list N) :
  forallb is_space g = true ->
  never_starts marker_widget
    (concat script_tail ++ (DarkMode.nl ++ g) ++ icons_script).
Proof.
  intros Hg. apply never_starts_app; [|apply never_starts_app].
  - apply never_starts_check. vm_compute. reflexivity.
  - apply (never_starts_spaces 60%N); [reflexivity | exact Hg].
  - apply never_starts_check. vm_compute. reflexivity.
Qed.

Lemma widget_block_wrap_found c pre g post :
  holds_widget_block c pre g post -> search DarkMode.wrap_pattern c <> None.
Proof.
  intros [Hg ->]. apply search_found_iff; [reflexivity|].
  exists (pre ++ DarkMode.nl ++ lit "  "),
    [comment_line; DarkMode.nl ++ lit "  "; marker_widget],
    (skipn (length marker_widget) widget_markup ++ DarkMode.nl ++
     g ++ icons_script ++ post).
  split; [repeat constructor|].
  rewrite snippet_head at 1. now rewrite <- !app_assoc.
Qed.

Lemma widget_block_kept c pre g post :
  holds_widget_block c pre g post ->
  exists p' post',
    wrap c = p' ++ (concat script_tail ++ (DarkMode.nl ++ g) ++ icons_script)
                ++ post'.
Proof.
  intros [Hg Hc].
  assert (Hc' : c = (pre ++ snippet_before_tail) ++
                    (concat script_tail ++ (DarkMode.nl ++ g) ++ icons_script)
                    ++ post).
  { rewrite Hc. rewrite snippet_tail at 1. now rewrite <- !app_assoc. }
  destruct (wrap_cases c) as [[_ ->] | (_ & a & g1 & b & _ & Hc1 & ->)].
  - eauto.
  - apply (insertion_keeps_block marker_widget (pre ++ snippet_before_tail) _ post).
    + now apply widget_tag_not_in_tail.
    + now rewrite <- Hc', <- Hc1.
Qed.

Lemma widget_block_script_found c pre g post :
  holds_widget_block c pre g post ->
  search DarkMode.script_pattern (wrap c) <> None.
Proof.
  intros Hblock. destruct (widget_block_kept c pre g post Hblock) as (p' & post' & ->).
  destruct Hblock as [Hg _].
  apply search_found_iff; [reflexivity|].
  exists p', (script_tail ++ [DarkMode.nl ++ g; icons_script]), post'. split.
  - repeat constructor. exact Hg.
  - rewrite concat_app. cbn [concat]. now rewrite app_nil_r, <- !app_assoc.
Qed.

(** In state C on such a content both substitutions take place. *)
Lemma state_c_count m n1 n2 c pre g post :
  holds_widget_block c pre g post -> stable m = true ->
  occurrences m wrapper_markup = n1 -> occurrences m script_block = n2 ->
  occurrences m (add_script (wrap c)) = occurrences m c + n1 + n2.
Proof.
  intros Hblock Hm <- <-.
  rewrite (add_script_count m _ Hm), (wrap_count m c Hm).
  pose proof (widget_block_wrap_found c pre g post Hblock).
  pose proof (widget_block_script_found c pre g post Hblock).
  destruct (search DarkMode.wrap_pattern c); [|congruence].
  destruct (search DarkMode.script_pattern (wrap c)); [|congruence].
  reflexivity.
Qed.

Lemma holds_widget_block_contains c pre g post :
  holds_widget_block c pre g post ->
  contains marker_widget c = true /\ contains widget_markup c = true.
Proof.
  intros [_ ->]. split; apply contains_app_r, contains_app_l.
  - vm_compute. reflexivity.
  - rewrite snippet_parts. apply contains_app_r, contains_app_l.
    apply contains_iff. exists [], []. now rewrite app_nil_r.
Qed.

(** C5, as amended.  In state C on a content that holds the snippet of the
    Text-Size Patcher followed by the icon script (no wrapper tag, no button
    marker, no "toggleTheme"), the file written back holds exactly one
    wrapper tag, one button marker, one wrapper-close marker more than
    before and one declaration of the toggle function; the marker
    "toggleTheme" itself occurs four times.  The widget markup and its
    comment line occur as often as before. *)
Theorem state_c_adds_wrapper_button_script
    (w : world) (f : list (list N)) (c pre g post : list N) :
  files w !! f = Some c ->
  holds_widget_block c pre g post ->
  contains marker_wrapper c = false -> contains marker_button c = false ->
  contains marker_toggle c = false ->
  exists w' c',
    DarkMode.add_dark_mode_toggle f w = Some (true, w') /\
    files w' !! f = Some c' /\
    console w' = console w ++ [Status Check_mark f (lit "added dark mode toggle")] /\
    occurrences marker_wrapper c' = 1 /\
    occurrences marker_button c' = 1 /\
    occurrences function_decl c' = 1 /\
    occurrences marker_toggle c' = 4 /\
    occurrences marker_wrapper_close c' = occurrences marker_wrapper_close c + 1 /\
    0 < occurrences widget_markup c /\
    occurrences widget_markup c' = occurrences widget_markup c /\
    occurrences comment_line c' = occurrences comment_line c.
Proof.
  intros Hf Hblock Hwr Hbtn Htog.
  destruct (holds_widget_block_contains c pre g post Hblock) as [Hwid Hmark].
  exists (perform f (DarkMode.plan c) w), (content_after (DarkMode.plan c) c).
  rewrite (add_dark_mode_toggle_run f w c Hf).
  rewrite (dark_plan_wrap c Htog Hwid Hwr).
  split; [reflexivity|]. split; [now apply files_perform|].
  split; [reflexivity|]. cbn [content_after written].
  assert (Hfn : contains function_decl c = false).
  { destruct (contains function_decl c) eqn:E; [|reflexivity].
    apply contains_iff in E as (x & y & ->).
    rewrite (contains_app_r marker_toggle x) in Htog; [discriminate|].
    apply contains_app_l. vm_compute. reflexivity. }
  pose proof (state_c_count marker_wrapper 1 0 c pre g post Hblock
                ltac:(vm_compute; reflexivity) ltac:(vm_compute; reflexivity)
                ltac:(vm_compute; reflexivity)) as E1.
  pose proof (state_c_count marker_button 1 0 c pre g post Hblock
                ltac:(vm_compute; reflexivity) ltac:(vm_compute; reflexivity)
                ltac:(vm_compute; reflexivity)) as E2.
  pose proof (state_c_count function_decl 0 1 c pre g post Hblock
                ltac:(vm_compute; reflexivity) ltac:(vm_compute; reflexivity)
                ltac:(vm_compute; reflexivity)) as E3.
  pose proof (state_c_count marker_toggle 1 3 c pre g post Hblock
                ltac:(vm_compute; reflexivity) ltac:(vm_compute; reflexivity)
                ltac:(vm_compute; reflexivity)) as E4.
  pose proof (state_c_count marker_wrapper_close 0 1 c pre g post Hblock
                ltac:(vm_compute; reflexivity) ltac:(vm_compute; reflexivity)
                ltac:(vm_compute; reflexivity)) as E5.
  pose proof (state_c_count widget_markup 0 0 c pre g post Hblock
                ltac:(vm_compute; reflexivity) ltac:(vm_compute; reflexivity)
                ltac:(vm_compute; reflexivity)) as E6.
  pose proof (state_c_count comment_line 0 0 c pre g post Hblock
                ltac:(vm_compute; reflexivity) ltac:(vm_compute; reflexivity)
                ltac:(vm_compute; reflexivity)) as E7.
  pose proof (occurrences_0 marker_wrapper c ltac:(discriminate) Hwr) as Z1.
  pose proof (occurrences_0 marker_button c ltac:(discriminate) Hbtn) as Z2.
  pose proof (occurrences_0 function_decl c ltac:(discriminate) Hfn) as Z3.
  pose proof (occurrences_0 marker_toggle c ltac:(discriminate) Htog) as Z4.
  pose proof (occurrences_pos widget_markup c ltac:(discriminate) Hmark) as P1.
  split; [lia|]. split; [lia|]. split; [lia|]. split; [lia|].
  split; [lia|]. split; [exact P1|]. split; [lia | lia].
Qed.

Lemma state_c_adds_wrapper_button_script_witness :
  let f := [lit "index.html"] in
  let w := World {[ f := patched_page ]} [] in
  (files w !! f = Some patched_page /\
   holds_widget_block patched_page [] [] (lit "</body>") /\
   contains marker_wrapper patched_page = false /\
   contains marker_button patched_page = false /\
   contains marker_toggle patched_page = false) /\
  exists w' c',
    DarkMode.add_dark_mode_toggle f w = Some (true, w') /\
    files w' !! f = Some c' /\
    console w' = console w ++ [Status Check_mark f (lit "added dark mode toggle")] /\
    occurrences marker_wrapper c' = 1 /\
    occurrences marker_button c' = 1 /\
    occurrences function_decl c' = 1 /\
    occurrences marker_toggle c' = 4 /\
    occurrences marker_wrapper_close c' =
      occurrences marker_wrapper_close patched_page + 1 /\
    0 < occurrences widget_markup patched_page /\
    occurrences widget_markup c' = occurrences widget_markup patched_page /\
    occurrences comment_line c' = occurrences comment_line patched_page.
Proof.
  intros f w.
  assert (Hblock : holds_widget_block patched_page [] [] (lit "</body>"))
    by (split; vm_compute; reflexivity).
  split; [repeat split; try (vm_compute; reflexivity); apply Hblock|].
  apply (state_c_adds_wrapper_button_script w f patched_page [] [] (lit "</body>"));
    try exact Hblock; vm_compute; reflexivity.
Defined.

(** C5 as stated fails on the page the Text-Size Patcher produces from a
    bare anchor: after the Dark-Mode Patcher the marker "toggleTheme" occurs
    four times (the handler of the button, the declaration, and twice in the
    export to the window), not once. *)
Lemma state_c_toggle_marker_occurs_four_times :
  let f := [lit "index.html"] in
  let w := World {[ f := patched_page ]} [] in
  contains marker_widget patched_page = true /\
  contains marker_wrapper patched_page = false /\
  contains marker_button patched_page = false /\
  contains marker_toggle patched_page = false /\
  exists w' c',
    DarkMode.add_dark_mode_toggle f w = Some (true, w') /\
    files w' !! f = Some c' /\
    occurrences marker_toggle c' = 4 /\
    occurrences marker_toggle c' <> 1.
Proof.
  intros f w. repeat split; try (vm_compute; reflexivity).
  exists (perform f (DarkMode.plan patched_page) w),
    (content_after (DarkMode.plan patched_page) patched_page).
  split; [now rewrite (add_dark_mode_toggle_run f w patched_page)|].
  split; [now apply files_perform|].
  split; [vm_compute; reflexivity | vm_compute; discriminate].
Qed.

(** Whatever the Text-Size Patcher writes holds such a block. *)
Lemma text_size_output_holds_block (c : list N) :
  search TextSize.pattern c <> None ->
  exists pre g post,
    holds_widget_block (sub TextSize.pattern TextSize.replacement c 0) pre g post.
Proof.
  destruct (search TextSize.pattern c) as [[[pre m] r]|] eqn:E; [intros _ | congruence].
  destruct (sub_all_head _ TextSize.replacement _ _ _ _ E) as [rest ->].
  destruct (search_sound _ _ _ _ _ E) as (segs & Hok & _ & ->).
  cbn in Hok.
  inversion Hok as [|? w1 ? segs1 Hw1 Hok1]; subst.
  inversion Hok1 as [|? l1 ? segs2 Hl1 Hok2]; subst.
  inversion Hok2 as [|? w2 ? segs3 Hw2 Hok3]; subst.
  inversion Hok3 as [|? l2 ? segs4 Hl2 Hok4]; subst.
  inversion Hok4; subst. simpl in Hl1, Hl2, Hw1. subst l1 l2.
  exists pre, w1, (w2 ++ lit "</body>" ++ rest). split; [exact Hw1|].
  cbn. unfold icons_script. now rewrite !app_nil_r, <- !app_assoc.
Qed.

End DarkModeStates.

(** ** More on the sweeps *)
Section SweepFacts.
Import Re Sys.

Lemma html_files_iff (w : world) f :
  In f (html_files w) <->
  is_Some (files w !! f) /\
  ends_with (lit ".html") (name f) = true /\
  name f <> lit "text-size-control.html".
Proof.
  unfold html_files. rewrite !filter_In, in_map_iff, negb_true_iff. split.
  - intros [[[[g c] [Hg Hin]] Hhtml] Hname]. simpl in Hg. subst g.
    apply list_elem_of_In, elem_of_map_to_list in Hin.
    split; [eauto|]. split; [exact Hhtml|].
    intros Heq. apply str_eqb_eq in Heq. congruence.
  - intros ([c Hc] & Hhtml & Hname). split; [split; [|exact Hhtml]|].
    + exists (f, c). split; [reflexivity|].
      now apply list_elem_of_In, elem_of_map_to_list.
    + destruct (str_eqb _ _) eqn:E; [|reflexivity].
      apply str_eqb_eq in E. contradiction.
Qed.

Lemma html_files_NoDup (w : world) : List.NoDup (html_files w).
Proof.
  unfold html_files. do 2 apply List.NoDup_filter.
  apply NoDup_ListNoDup, NoDup_fst_map_to_list.
Qed.

Lemma dom_perform (f : list (list N)) (o : outcome) (w : world) :
  is_Some (files w !! f) -> dom (files (perform f o w)) = dom (files w).
Proof.
  intros Hf. unfold perform. cbn [files].
  destruct (written o); [now apply dom_insert_lookup_L | reflexivity].
Qed.

(** The loop, for any patcher that follows its [plan]: one status line per
    file, in the order of the list; [updated] counts the lines that report a
    rewrite; no file appears or disappears; the files of the list end up
    as one call leaves them. *)
Section Report.
Variable patch : list (list N) -> IO bool.
Variable plan : list N -> outcome.
Variable added : line -> bool.
Variable settled : list N -> Prop.
Hypothesis patch_run : forall f w c,
  files w !! f = Some c ->
  patch f w = Some (returned (plan c), perform f (plan c) w).
Hypothesis added_returned : forall f c,
  added (Status (mark (plan c)) f (message (plan c))) = returned (plan c).
Hypothesis settled_after : forall c, settled (content_after (plan c) c).

Lemma count_loop_report (l : list (list (list N))) :
  forall (w : world) updated skipped,
  (forall f, In f l -> is_Some (files w !! f)) ->
  exists updated' skipped' w' lines,
    count_loop patch l updated skipped w = Some ((updated', skipped'), w') /\
    console w' = console w ++ lines /\
    map line_file lines = map Some l /\
    updated' = updated + length (List.filter added lines) /\
    updated' + skipped' = updated + skipped + length l /\
    dom (files w') = dom (files w) /\
    (forall g, ~ In g l -> files w' !! g = files w !! g) /\
    (forall f, In f l -> exists c', files w' !! f = Some c' /\ settled c').
Proof.
  induction l as [|f l IH]; intros w updated skipped Hex.
  - exists updated, skipped, w, []. cbn [count_loop]. rewrite app_nil_r.
    repeat split; simpl; try lia; try tauto.
  - destruct (Hex f (or_introl eq_refl)) as [c Hc].
    set (o := plan c). set (w1 := perform f o w).
    assert (Hex1 : forall g, In g l -> is_Some (files w1 !! g)).
    { intros g Hg. destruct (decide (f = g)) as [<-|Hne].
      - unfold w1. rewrite (files_perform f _ w c Hc). eauto.
      - unfold w1. rewrite (files_perform_other f g _ w Hne). apply Hex. now right. }
    assert (Hstep : forall u s,
              count_loop patch (f :: l) updated skipped w =
              count_loop patch l u s w1 ->
              u = updated + (if returned o then 1 else 0) ->
              u + s = updated + skipped + 1 ->
              exists updated' skipped' w' lines,
                count_loop patch (f :: l) updated skipped w
                  = Some ((updated', skipped'), w') /\
                console w' = console w ++ lines /\
                map line_file lines = map Some (f :: l) /\
                updated' = updated + length (List.filter added lines) /\
                updated' + skipped' = updated + skipped + length (f :: l) /\
                dom (files w') = dom (files w) /\
                (forall g, ~ In g (f :: l) -> files w' !! g = files w !! g) /\
                (forall g, In g (f :: l) ->
                   exists c', files w' !! g = Some c' /\ settled c')).
    { intros u s -> Hu Hus.
      destruct (IH w1 u s Hex1)
        as (u' & s' & w' & lines & -> & Hcon & Hmap & Hu' & Hsum & Hdom & Hout & Hin).
      exists u', s', w', (Status (mark o) f (message o) :: lines).
      split; [reflexivity|]. split.
      { rewrite Hcon. unfold w1, perform. cbn [console].
        now rewrite <- app_assoc. }
      split; [cbn [map line_file]; now rewrite Hmap|]. split.
      { cbn [List.filter]. unfold o at 1 2. rewrite added_returned. fold o.
        destruct (returned o); simpl; lia. }
      split; [simpl; lia|]. split.
      { rewrite Hdom. unfold w1. apply dom_perform. eauto. }
      split.
      { intros g Hg. rewrite Hout by (intros ?; apply Hg; now right).
        unfold w1. apply files_perform_other. intros ->. apply Hg. now left. }
      intros g [<- | Hg]; [|now apply Hin].
      destruct (decide (f ∈ l)) as [Hfl | Hfl]; rewrite list_elem_of_In in Hfl;
        [now apply Hin|].
      rewrite (Hout f Hfl). unfold w1. rewrite (files_perform f o w c Hc).
      eexists. split; [reflexivity | apply settled_after]. }
    destruct (returned o) eqn:Hr.
    + apply (Hstep (updated + 1) skipped); [|lia|lia].
      cbn [count_loop]. unfold mbind at 1, IO_bind at 1.
      rewrite (patch_run f w c Hc). fold o. now rewrite Hr.
    + apply (Hstep updated (skipped + 1)); [|lia|lia].
      cbn [count_loop]. unfold mbind at 1, IO_bind at 1.
      rewrite (patch_run f w c Hc). fold o. now rewrite Hr.
Qed.

(** A loop over files that one more call leaves as they are changes no
    file; when the calls also return [False], nothing is counted as
    updated. *)
Lemma count_loop_quiet (l : list (list (list N))) :
  forall (w : world) updated skipped,
  (forall f, In f l ->
     exists c, files w !! f = Some c /\ content_after (plan c) c = c) ->
  exists updated' skipped' w',
    count_loop patch l updated skipped w = Some ((updated', skipped'), w') /\
    files w' = files w /\
    ((forall f c, In f l -> files w !! f = Some c -> returned (plan c) = false) ->
     updated' = updated /\ skipped' = skipped + length l).
Proof.
  induction l as [|f l IH]; intros w updated skipped Hq.
  - exists updated, skipped, w. cbn [count_loop]. repeat split. simpl. lia.
  - destruct (Hq f (or_introl eq_refl)) as (c & Hc & Hfix).
    assert (Hsame : files (perform f (plan c) w) = files w).
    { unfold perform, content_after in *. cbn [files].
      destruct (written (plan c)) as [c'|]; [|reflexivity].
      subst c'. now apply insert_id. }
    assert (Hq1 : forall g, In g l ->
              exists c0, files (perform f (plan c) w) !! g = Some c0 /\
                         content_after (plan c0) c0 = c0).
    { intros g Hg. rewrite Hsame. apply Hq. now right. }
    cbn [count_loop]. unfold mbind at 1, IO_bind at 1.
    rewrite (patch_run f w c Hc).
    destruct (returned (plan c)) eqn:Hr.
    + destruct (IH _ (updated + 1) skipped Hq1) as (u' & s' & w' & -> & Hf & Hcount).
      exists u', s', w'. split; [reflexivity|]. split; [congruence|].
      intros Hfalse. specialize (Hfalse f c (or_introl eq_refl) Hc). congruence.
    + destruct (IH _ updated (skipped + 1) Hq1) as (u' & s' & w' & -> & Hf & Hcount).
      exists u', s', w'. split; [reflexivity|]. split; [congruence|].
      intros Hfalse. destruct Hcount as [-> ->].
      { intros g c0 Hg Hc0. rewrite Hsame in Hc0. apply (Hfalse g c0); [now right | exact Hc0]. }
      split; [reflexivity | simpl; lia].
Qed.

(** A whole [main] built on [patch]. *)
Lemma main_report (main : IO unit) (w : world) :
  (main w =
   match count_loop patch (sorted (html_files w)) 0 0
           (World (files w)
                  ((console w ++ [Found (length (html_files w))]) ++ [Blank])) with
   | Some ((updated, skipped), w') =>
       Some (tt, World (files w')
                       (((console w' ++ [Blank]) ++ [Updated updated])
                        ++ [Skipped skipped]))
   | None => None
   end) ->
  exists w' lines updated skipped,
    main w = Some (tt, w') /\
    console w' = console w ++ [Found (length (html_files w)); Blank] ++ lines ++
                 [Blank; Updated updated; Skipped skipped] /\
    map line_file lines = map Some (sorted (html_files w)) /\
    updated = length (List.filter added lines) /\
    updated + skipped = length (html_files w) /\
    dom (files w') = dom (files w) /\
    (forall g, ~ In g (html_files w) -> files w' !! g = files w !! g) /\
    (forall f, In f (html_files w) ->
       exists c', files w' !! f = Some c' /\ settled c').
Proof.
  intros ->.
  destruct (count_loop_report (sorted (html_files w))
              (World (files w)
                     ((console w ++ [Found (length (html_files w))]) ++ [Blank]))
              0 0)
    as (u & s & w' & lines & -> & Hcon & Hmap & Hu & Hsum & Hdom & Hout & Hin).
  { intros f Hf. apply (proj1 (sorted_In _ _)) in Hf. now apply html_files_exist. }
  eexists _, lines, u, s. split; [reflexivity|]. cbn [files console] in *.
  split; [rewrite Hcon; now rewrite <- !app_assoc|].
  split; [exact Hmap|]. split; [lia|].
  split; [rewrite sorted_length in Hsum; lia|]. split; [exact Hdom|]. split.
  - intros g Hg. apply Hout. now rewrite sorted_In.
  - intros f Hf. apply Hin. now apply sorted_In.
Qed.

(** A second sweep over files that the first one settled. *)
Lemma main_quiet (main : IO unit) (w : world) :
  (main w =
   match count_loop patch (sorted (html_files w)) 0 0
           (World (files w)
                  ((console w ++ [Found (length (html_files w))]) ++ [Blank])) with
   | Some ((updated, skipped), w') =>
       Some (tt, World (files w')
                       (((console w' ++ [Blank]) ++ [Updated updated])
                        ++ [Skipped skipped]))
   | None => None
   end) ->
  (forall f, In f (html_files w) ->
     exists c, files w !! f = Some c /\ content_after (plan c) c = c) ->
  exists w' lines updated skipped,
    main w = Some (tt, w') /\
    files w' = files w /\
    console w' = console w ++ lines ++ [Updated updated; Skipped skipped] /\
    ((forall f c, In f (html_files w) -> files w !! f = Some c ->
        returned (plan c) = false) ->
     updated = 0 /\ skipped = length (html_files w)).
Proof.
  intros Hmain Hq.
  destruct (count_loop_report (sorted (html_files w))
              (World (files w)
                     ((console w ++ [Found (length (html_files w))]) ++ [Blank]))
              0 0)
    as (u & s & w1 & lines & Hloop & Hcon & _).
  { intros f Hf. apply (proj1 (sorted_In _ _)) in Hf. now apply html_files_exist. }
  destruct (count_loop_quiet (sorted (html_files w))
              (World (files w)
                     ((console w ++ [Found (length (html_files w))]) ++ [Blank]))
              0 0)
    as (u' & s' & w1' & Hloop' & Hfiles & Hcount).
  { intros f Hf. cbn [files]. apply Hq. now apply sorted_In. }
  rewrite Hloop in Hloop'. injection Hloop' as <- <- <-.
  rewrite Hmain, Hloop.
  exists (World (files w1)
                (((console w1 ++ [Blank]) ++ [Updated u]) ++ [Skipped s])),
    ([Found (length (html_files w)); Blank] ++ lines ++ [Blank]), u, s.
  split; [reflexivity|]. cbn [files console] in *. split; [exact Hfiles|]. split.
  - rewrite Hcon. now rewrite <- !app_assoc.
  - intros Hfalse. destruct Hcount as [-> ->].
    + intros f c Hf Hc. apply (Hfalse f c); [now apply sorted_In | exact Hc].
    + split; [reflexivity | now rewrite sorted_length].
Qed.

End Report.

End SweepFacts.

(** ** What the two [main] functions guarantee *)
Section SweepTheorems.
Import Re Sys.

Lemma text_size_added_returned f (c : list N) :
  text_size_added (Status (mark (TextSize.plan c)) f (message (TextSize.plan c)))
  = returned (TextSize.plan c).
Proof.
  destruct (contains (lit "text-size-control") c) eqn:Hm.
  - now rewrite (text_size_plan_marked c Hm).
  - destruct (search TextSize.pattern c) eqn:Hs.
    + rewrite (text_size_plan_patched c Hm) by congruence. reflexivity.
    + now rewrite (text_size_plan_no_anchor c Hm Hs).
Qed.

Lemma dark_mode_added_returned f (c : list N) :
  dark_mode_added (Status (mark (DarkMode.plan c)) f (message (DarkMode.plan c)))
  = returned (DarkMode.plan c).
Proof.
  destruct (contains marker_toggle c) eqn:H1;
    [now rewrite (dark_plan_toggled c H1)|].
  destruct (contains marker_widget c) eqn:H2;
    [|now rewrite (dark_plan_missing c H1 H2)].
  destruct (contains marker_wrapper c) eqn:H3;
    [|now rewrite (dark_plan_wrap c H1 H2 H3)].
  destruct (contains marker_button c) eqn:H4.
  - now rewrite (dark_plan_complete c H1 H2 H3 H4).
  - now rewrite (dark_plan_button c H1 H2 H3 H4).
Qed.

(** One call of [add_text_size_control] leaves a content on which the next
    call returns [False] and writes nothing. *)
Lemma text_size_settled (c : list N) :
  returned (TextSize.plan (content_after (TextSize.plan c) c)) = false /\
  written (TextSize.plan (content_after (TextSize.plan c) c)) = None.
Proof.
  destruct (contains (lit "text-size-control") c) eqn:Hm.
  - rewrite (text_size_plan_marked c Hm). cbn [content_after written].
    now rewrite (text_size_plan_marked c Hm).
  - destruct (search TextSize.pattern c) eqn:Hs.
    + assert (Hs' : search TextSize.pattern c <> None) by congruence.
      rewrite (text_size_plan_patched c Hm Hs'). cbn [content_after written].
      now rewrite (text_size_plan_marked _ (text_size_sub_has_marker c Hs')).
    + rewrite (text_size_plan_no_anchor c Hm Hs). cbn [content_after written].
      now rewrite (text_size_plan_no_anchor c Hm Hs).
Qed.

(** One call of [add_dark_mode_toggle] leaves a content that the next call
    does not change. *)
Lemma dark_mode_settled (c : list N) :
  content_after (DarkMode.plan (content_after (DarkMode.plan c) c))
                (content_after (DarkMode.plan c) c)
  = content_after (DarkMode.plan c) c.
Proof.
  destruct (dark_plan_after c) as [Hsame | Htoggle].
  - now rewrite !Hsame.
  - now rewrite (dark_plan_toggled _ Htoggle).
Qed.


(** X2.  Neither sweep creates or deletes a file, and a file whose content
    differs after a sweep has a name that ends in [.html] and is not
    text-size-control.html. *)
Theorem sweep_scope (w : world) :
  (exists w',
     TextSize.main w = Some (tt, w') /\
     dom (files w') = dom (files w) /\
     forall g, files w' !! g <> files w !! g ->
       ends_with (lit ".html") (name g) = true /\
       name g <> lit "text-size-control.html") /\
  (exists w',
     DarkMode.main w = Some (tt, w') /\
     dom (files w') = dom (files w) /\
     forall g, files w' !! g <> files w !! g ->
       ends_with (lit ".html") (name g) = true /\
       name g <> lit "text-size-control.html").
Proof.
  assert (Hscope : forall w' : world,
            (forall g, ~ In g (html_files w) -> files w' !! g = files w !! g) ->
            forall g, files w' !! g <> files w !! g ->
              ends_with (lit ".html") (name g) = true /\
              name g <> lit "text-size-control.html").
  { intros w' Hout g Hg.
    destruct (decide (g ∈ html_files w)) as [Hin | Hin];
      rewrite list_elem_of_In in Hin.
    - now apply html_files_iff in Hin.
    - now apply Hout in Hin. }
  split.
  - destruct (main_report TextSize.add_text_size_control TextSize.plan
                text_size_added (fun _ => True) add_text_size_control_run
                text_size_added_returned (fun _ => I) TextSize.main w
                (text_size_main_run w))
      as (w' & lines & u & s & H1 & _ & _ & _ & _ & Hdom & Hout & _).
    exists w'. split; [exact H1|]. split; [exact Hdom | now apply Hscope].
  - destruct (main_report DarkMode.add_dark_mode_toggle DarkMode.plan
                dark_mode_added (fun _ => True) add_dark_mode_toggle_run
                dark_mode_added_returned (fun _ => I) DarkMode.main w
                (dark_mode_main_run w))
      as (w' & lines & u & s & H1 & _ & _ & _ & _ & Hdom & Hout & _).
    exists w'. split; [exact H1|]. split; [exact Hdom | now apply Hscope].
Qed.

Lemma html_files_same_dom (w w' : world) f :
  dom (files w') = dom (files w) -> In f (html_files w') <-> In f (html_files w).
Proof.
  intros Hdom. rewrite !html_files_iff.
  rewrite <- !(elem_of_dom (D := gset (list (list N)))), Hdom. tauto.
Qed.

Lemma html_files_same_length (w w' : world) :
  dom (files w') = dom (files w) -> length (html_files w') = length (html_files w).
Proof.
  intros Hdom. apply Permutation_length, NoDup_Permutation.
  - apply NoDup_ListNoDup, html_files_NoDup.
  - apply NoDup_ListNoDup, html_files_NoDup.
  - intros f. rewrite !list_elem_of_In. now apply html_files_same_dom.
Qed.

(** X3.  A second sweep of the Text-Size Patcher right after the first
    changes no file and reports nothing as updated: every file found is
    counted as skipped. *)
Theorem text_size_second_sweep (w : world) :
  exists w1 w2 lines,
    TextSize.main w = Some (tt, w1) /\
    TextSize.main w1 = Some (tt, w2) /\
    files w2 = files w1 /\
    console w2 = console w1 ++ lines ++
                 [Updated 0; Skipped (length (html_files w))].
Proof.
  destruct (main_report TextSize.add_text_size_control TextSize.plan
              text_size_added
              (fun c => returned (TextSize.plan c) = false /\
                        written (TextSize.plan c) = None)
              add_text_size_control_run text_size_added_returned
              text_size_settled TextSize.main w (text_size_main_run w))
    as (w1 & _ & _ & _ & Hrun1 & _ & _ & _ & _ & Hdom & _ & Hsettled).
  assert (Hq : forall f, In f (html_files w1) ->
            exists c, files w1 !! f = Some c /\
                      returned (TextSize.plan c) = false /\
                      written (TextSize.plan c) = None).
  { intros f Hf. apply Hsettled. now apply (html_files_same_dom w w1). }
  destruct (main_quiet TextSize.add_text_size_control TextSize.plan
              text_size_added (fun _ => True) add_text_size_control_run
              text_size_added_returned (fun _ => I)
              TextSize.main w1 (text_size_main_run w1))
    as (w2 & lines & u & s & Hrun2 & Hfiles & Hcon & Hcount).
  { intros f Hf. destruct (Hq f Hf) as (c & Hc & _ & Hw).
    exists c. split; [exact Hc|]. unfold content_after. now rewrite Hw. }
  destruct Hcount as [-> ->].
  { intros f c Hf Hc. destruct (Hq f Hf) as (c' & Hc' & Hr & _). congruence. }
  exists w1, w2, lines. rewrite <- (html_files_same_length w w1 Hdom). auto.
Qed.

(** X4.  A second sweep of the Dark-Mode Patcher right after the first
    changes no file. *)
Theorem dark_mode_second_sweep (w : world) :
  exists w1 w2,
    DarkMode.main w = Some (tt, w1) /\
    DarkMode.main w1 = Some (tt, w2) /\
    files w2 = files w1.
Proof.
  destruct (main_report DarkMode.add_dark_mode_toggle DarkMode.plan
              dark_mode_added
              (fun c => content_after (DarkMode.plan c) c = c)
              add_dark_mode_toggle_run dark_mode_added_returned
              dark_mode_settled DarkMode.main w (dark_mode_main_run w))
    as (w1 & _ & _ & _ & Hrun1 & _ & _ & _ & _ & Hdom & _ & Hsettled).
  destruct (main_quiet DarkMode.add_dark_mode_toggle DarkMode.plan
              dark_mode_added (fun _ => True) add_dark_mode_toggle_run
              dark_mode_added_returned (fun _ => I)
              DarkMode.main w1 (dark_mode_main_run w1))
    as (w2 & lines & u & s & Hrun2 & Hfiles & _).
  { intros f Hf. apply Hsettled. now apply (html_files_same_dom w w1). }
  exists w1, w2. auto.
Qed.








End SweepTheorems.

(** ** The Dark-Mode Patcher off the template *)
Section DarkModeEdges.
Import Re Sys.
#[local] Arguments lit : simpl never.




Lemma wrap_pattern_found_iff (c : list N) :
  search DarkMode.wrap_pattern c <> None <-> comment_before_widget c.
Proof.
  rewrite search_found_iff by reflexivity. split.
  - intros (pre & segs & r & Hok & ->). cbn in Hok.
    inversion Hok as [|? l1 ? segs1 Hl1 Hok1]; subst.
    inversion Hok1 as [|? g ? segs2 Hg Hok2]; subst.
    inversion Hok2 as [|? l2 ? segs3 Hl2 Hok3]; subst.
    inversion Hok3; subst. simpl in Hl1, Hl2, Hg. subst l1 l2.
    exists pre, g, r. split; [exact Hg|].
    cbn [concat]. now rewrite app_nil_r, <- !app_assoc.
  - intros (a & g & b & Hg & ->).
    exists a, [comment_line; g; marker_widget], b. split.
    + repeat constructor. exact Hg.
    + cbn [concat]. now rewrite app_nil_r, <- !app_assoc.
Qed.

Lemma script_pattern_found_iff (c : list N) :
  search DarkMode.script_pattern c <> None <-> tail_before_icons c.
Proof.
  rewrite search_found_iff by reflexivity. split.
  - intros (pre & segs & r & Hok & ->). cbn in Hok.
    inversion Hok as [|? g1 ? segs1 Hg1 Hok1]; subst.
    inversion Hok1 as [|? l1 ? segs2 Hl1 Hok2]; subst.
    inversion Hok2 as [|? g2 ? segs3 Hg2 Hok3]; subst.
    inversion Hok3 as [|? l2 ? segs4 Hl2 Hok4]; subst.
    inversion Hok4 as [|? g3 ? segs5 Hg3 Hok5]; subst.
    inversion Hok5 as [|? l3 ? segs6 Hl3 Hok6]; subst.
    inversion Hok6 as [|? g ? segs7 Hg Hok7]; subst.
    inversion Hok7 as [|? l4 ? segs8 Hl4 Hok8]; subst.
    inversion Hok8; subst. simpl in Hl1, Hl2, Hl3, Hl4. subst l1 l2 l3 l4.
    exists pre, g1, g2, g3, g, r. split; [auto|].
    cbn [concat]. now rewrite app_nil_r, <- !app_assoc.
  - intros (a & g1 & g2 & g3 & g & b & (H1 & H2 & H3 & H4) & ->).
    exists a, [g1; lit "window.adjustTextSize = adjustTextSize;"; g2;
               lit "})();"; g3; script_close; g; icons_script], b.
    split.
    + repeat constructor; assumption.
    + cbn [concat]. now rewrite app_nil_r, <- !app_assoc.
Qed.

(** The script block goes in only where the icon script is. *)
Lemma script_pattern_needs_icons (c : list N) :
  contains icons_script c = false -> search DarkMode.script_pattern c = None.
Proof.
  intros Hno. destruct (search DarkMode.script_pattern c) eqn:E; [|reflexivity].
  assert (Ht : tail_before_icons c)
    by (apply script_pattern_found_iff; congruence).
  destruct Ht as (a & g1 & g2 & g3 & g & b & _ & ->).
  rewrite !app_assoc in Hno. rewrite <- (app_assoc _ icons_script b) in Hno.
  rewrite (contains_app_r icons_script) in Hno; [discriminate|].
  apply contains_app_l, contains_iff. exists [], []. now rewrite app_nil_r.
Qed.

(** X7.  State C on a page where the widget tag does not follow the comment
    line but the end of the widget script is followed by the icon script:
    the file is rewritten and reported as updated, it gains the
    wrapper-close marker and the toggle script, but no wrapper tag and no
    button. *)
Theorem state_c_close_without_wrapper (w : world) (f : list (list N)) (c : list N) :
  files w !! f = Some c ->
  contains marker_toggle c = false -> contains marker_widget c = true ->
  contains marker_wrapper c = false ->
  ~ comment_before_widget c -> tail_before_icons c ->
  exists w' c',
    DarkMode.add_dark_mode_toggle f w = Some (true, w') /\
    files w' !! f = Some c' /\
    console w' = console w ++ [Status Check_mark f (lit "added dark mode toggle")] /\
    occurrences marker_wrapper c' = 0 /\
    occurrences marker_button c' = occurrences marker_button c /\
    occurrences marker_wrapper_close c' = occurrences marker_wrapper_close c + 1 /\
    occurrences function_decl c' = 1 /\
    occurrences marker_toggle c' = 3.
Proof.
  intros Hf H1 H2 H3 Hnc Ht.
  exists (perform f (DarkMode.plan c) w), (content_after (DarkMode.plan c) c).
  rewrite (add_dark_mode_toggle_run f w c Hf), (dark_plan_wrap c H1 H2 H3).
  split; [reflexivity|]. split; [now apply files_perform|].
  split; [reflexivity|]. cbn [content_after written].
  assert (Hw : wrap c = c).
  { destruct (wrap_cases c) as [[_ Hw] | [Hs _]]; [exact Hw|].
    exfalso. now apply Hnc, wrap_pattern_found_iff. }
  rewrite Hw. apply script_pattern_found_iff in Ht.
  assert (Hcount : forall m n, stable m = true -> occurrences m script_block = n ->
            occurrences m (add_script c) = occurrences m c + n).
  { intros m n Hm <-. rewrite (add_script_count m c Hm).
    destruct (search DarkMode.script_pattern c); [reflexivity | congruence]. }
  assert (Hfn : contains function_decl c = false).
  { destruct (contains function_decl c) eqn:E; [|reflexivity].
    apply contains_iff in E as (x & y & ->).
    rewrite (contains_app_r marker_toggle x) in H1; [discriminate|].
    apply contains_app_l. vm_compute. reflexivity. }
  pose proof (Hcount marker_wrapper 0 ltac:(vm_compute; reflexivity)
                ltac:(vm_compute; reflexivity)) as E1.
  pose proof (Hcount marker_button 0 ltac:(vm_compute; reflexivity)
                ltac:(vm_compute; reflexivity)) as E2.
  pose proof (Hcount marker_wrapper_close 1 ltac:(vm_compute; reflexivity)
                ltac:(vm_compute; reflexivity)) as E3.
  pose proof (Hcount function_decl 1 ltac:(vm_compute; reflexivity)
                ltac:(vm_compute; reflexivity)) as E4.
  pose proof (Hcount marker_toggle 3 ltac:(vm_compute; reflexivity)
                ltac:(vm_compute; reflexivity)) as E5.
  pose proof (occurrences_0 marker_wrapper c ltac:(discriminate) H3) as Z1.
  pose proof (occurrences_0 function_decl c ltac:(discriminate) Hfn) as Z2.
  pose proof (occurrences_0 marker_toggle c ltac:(discriminate) H1) as Z3.
  repeat split; lia.
Qed.

Lemma state_c_close_without_wrapper_witness :
  let f := [lit "index.html"] in
  let c := lit "<div class=`text-size-control`></div>
<script>
  window.adjustTextSize = adjustTextSize;
})();
</script>
<script>lucide.createIcons();</script>" in
  let w := World {[ f := c ]} [] in
  (files w !! f = Some c /\
   contains marker_toggle c = false /\ contains marker_widget c = true /\
   contains marker_wrapper c = false /\
   ~ comment_before_widget c /\ tail_before_icons c) /\
  exists w' c',
    DarkMode.add_dark_mode_toggle f w = Some (true, w') /\
    files w' !! f = Some c' /\
    console w' = console w ++ [Status Check_mark f (lit "added dark mode toggle")] /\
    occurrences marker_wrapper c' = 0 /\
    occurrences marker_button c' = occurrences marker_button c /\
    occurrences marker_wrapper_close c' = occurrences marker_wrapper_close c + 1 /\
    occurrences function_decl c' = 1 /\
    occurrences marker_toggle c' = 3.
Proof.
  intros f c w.
  assert (Hnc : ~ comment_before_widget c).
  { intros H%wrap_pattern_found_iff. apply H. vm_compute. reflexivity. }
  assert (Ht : tail_before_icons c).
  { apply script_pattern_found_iff. vm_compute. discriminate. }
  split; [repeat split; try (vm_compute; reflexivity); assumption|].
  apply (state_c_close_without_wrapper w f c); try assumption;
    vm_compute; reflexivity.
Defined.

(** X8.  State C on a page where the widget tag follows the comment line
    but there is no icon script: the file gains the wrapper tag and the
    button, but no wrapper-close marker and no declaration of the function
    the button calls; the handler of the button is then the only
    "toggleTheme" of the file, and the next call skips the file as already
    toggled. *)
Theorem state_c_button_without_function
    (w : world) (f : list (list N)) (c : list N) :
  files w !! f = Some c ->
  contains marker_toggle c = false -> contains marker_wrapper c = false ->
  comment_before_widget c -> contains icons_script c = false ->
  exists w' c' w'',
    DarkMode.add_dark_mode_toggle f w = Some (true, w') /\
    files w' !! f = Some c' /\
    occurrences marker_wrapper c' = 1 /\
    occurrences marker_button c' = occurrences marker_button c + 1 /\
    occurrences marker_wrapper_close c' = occurrences marker_wrapper_close c /\
    occurrences function_decl c' = 0 /\
    occurrences marker_toggle c' = 1 /\
    DarkMode.add_dark_mode_toggle f w' = Some (false, w'') /\
    files w'' = files w' /\
    console w'' = console w' ++
      [Status Check_mark f (lit "already has dark mode toggle")].
Proof.
  intros Hf H1 H3 Hc Hno.
  assert (H2 : contains marker_widget c = true).
  { destruct Hc as (a & g & b & _ & ->).
    rewrite !app_assoc. rewrite <- (app_assoc _ marker_widget b).
    apply contains_app_r, contains_app_l, contains_iff.
    exists [], []. now rewrite app_nil_r. }
  apply wrap_pattern_found_iff in Hc.
  assert (Hcount : forall m n, stable m = true -> occurrences m wrapper_markup = n ->
            occurrences m (wrap c) = occurrences m c + n).
  { intros m n Hm <-. rewrite (wrap_count m c Hm).
    destruct (search DarkMode.wrap_pattern c); [reflexivity | congruence]. }
  assert (Hicons : contains icons_script (wrap c) = false).
  { rewrite contains_occurrences by discriminate.
    rewrite (Hcount icons_script 0) by (vm_compute; reflexivity).
    rewrite (occurrences_0 icons_script c) by (discriminate || assumption).
    reflexivity. }
  assert (Hs : add_script (wrap c) = wrap c).
  { destruct (add_script_cases (wrap c)) as [[_ Hs] | [Hs _]]; [exact Hs|].
    now rewrite script_pattern_needs_icons in Hs. }
  assert (Hfn : contains function_decl c = false).
  { destruct (contains function_decl c) eqn:E; [|reflexivity].
    apply contains_iff in E as (x & y & ->).
    rewrite (contains_app_r marker_toggle x) in H1; [discriminate|].
    apply contains_app_l. vm_compute. reflexivity. }
  pose proof (Hcount marker_wrapper 1 ltac:(vm_compute; reflexivity)
                ltac:(vm_compute; reflexivity)) as E1.
  pose proof (Hcount marker_button 1 ltac:(vm_compute; reflexivity)
                ltac:(vm_compute; reflexivity)) as E2.
  pose proof (Hcount marker_wrapper_close 0 ltac:(vm_compute; reflexivity)
                ltac:(vm_compute; reflexivity)) as E3.
  pose proof (Hcount function_decl 0 ltac:(vm_compute; reflexivity)
                ltac:(vm_compute; reflexivity)) as E4.
  pose proof (Hcount marker_toggle 1 ltac:(vm_compute; reflexivity)
                ltac:(vm_compute; reflexivity)) as E5.
  pose proof (occurrences_0 marker_wrapper c ltac:(discriminate) H3) as Z1.
  pose proof (occurrences_0 function_decl c ltac:(discriminate) Hfn) as Z2.
  pose proof (occurrences_0 marker_toggle c ltac:(discriminate) H1) as Z3.
  assert (Htog : contains marker_toggle (wrap c) = true).
  { rewrite contains_occurrences by discriminate. rewrite E5, Z3. reflexivity. }
  assert (Hf' : files (perform f (DarkMode.plan c) w) !! f = Some (wrap c)).
  { rewrite (files_perform f _ w c Hf), (dark_plan_wrap c H1 H2 H3).
    cbn [content_after written]. now rewrite Hs. }
  exists (perform f (DarkMode.plan c) w), (wrap c),
    (perform f (DarkMode.plan (wrap c)) (perform f (DarkMode.plan c) w)).
  rewrite (add_dark_mode_toggle_run f w c Hf).
  rewrite (add_dark_mode_toggle_run f _ (wrap c) Hf').
  rewrite (dark_plan_toggled (wrap c) Htog).
  split; [now rewrite (dark_plan_wrap c H1 H2 H3)|].
  split; [exact Hf'|]. repeat split; lia.
Qed.

Lemma state_c_button_without_function_witness :
  let f := [lit "index.html"] in
  let c := lit "<!-- Text Size Adjustment Tool -->
<div class=`text-size-control`></div>" in
  let w := World {[ f := c ]} [] in
  (files w !! f = Some c /\
   contains marker_toggle c = false /\ contains marker_wrapper c = false /\
   comment_before_widget c /\ contains icons_script c = false) /\
  exists w' c' w'',
    DarkMode.add_dark_mode_toggle f w = Some (true, w') /\
    files w' !! f = Some c' /\
    occurrences marker_wrapper c' = 1 /\
    occurrences marker_button c' = occurrences marker_button c + 1 /\
    occurrences marker_wrapper_close c' = occurrences marker_wrapper_close c /\
    occurrences function_decl c' = 0 /\
    occurrences marker_toggle c' = 1 /\
    DarkMode.add_dark_mode_toggle f w' = Some (false, w'') /\
    files w'' = files w' /\
    console w'' = console w' ++
      [Status Check_mark f (lit "already has dark mode toggle")].
Proof.
  intros f c w.
  assert (Hc : comment_before_widget c).
  { apply wrap_pattern_found_iff. vm_compute. discriminate. }
  split; [repeat split; try (vm_compute; reflexivity); assumption|].
  apply (state_c_button_without_function w f c); try assumption;
    vm_compute; reflexivity.
Defined.

End DarkModeEdges.

(** ** What the Text-Size Patcher adds *)
Section TextSizeGrowth.
Import Re Sys.
#[local] Arguments lit : simpl never.

Lemma grown_app_keep t x s s' : grown t s s' -> grown t (x ++ s) (x ++ s').
Proof. intros H. induction x as [|c x IH]; [exact H | now apply grown_keep]. Qed.


(** An occurrence of a suffix of [m] at the start of the grown text was at
    the start of the text. *)
Lemma grown_starts_with t m s s' :
  apart m t = true -> grown t s s' ->
  forall u v, m = u ++ v -> v <> [] ->
  starts_with v s' = true -> starts_with v s = true.
Proof.
  intros Hap Hg. induction Hg as [s | c s s' Hg IH | s s' Hg IH];
    intros u v Hm Hv Hs.
  - exact Hs.
  - destruct v as [|a v]; [congruence|]. simpl in Hs |- *.
    apply andb_true_iff in Hs as [Hac Hs]. rewrite Hac. simpl.
    destruct v as [|b v]; [reflexivity|].
    apply (IH (u ++ [a]) (b :: v)); [now rewrite <- app_assoc | discriminate | exact Hs].
  - exfalso. unfold apart in Hap. rewrite forallb_forall in Hap.
    assert (Hin : In (length u) (seq 0 (length m))).
    { apply in_seq. rewrite Hm, length_app. destruct v; [congruence | simpl; lia]. }
    specialize (Hap _ Hin). apply negb_true_iff in Hap.
    rewrite Hm, skipn_app, skipn_all, Nat.sub_diag, skipn_O in Hap. simpl in Hap.
    apply starts_with_iff in Hs as [r Hr]. symmetry in Hr.
    rewrite (compat_of_common_start _ _ _ _ Hr) in Hap. discriminate.
Qed.

(** Putting in copies of [t] brings in no occurrence of a marker that [t]
    does not hold and cannot complete. *)
Lemma grown_no_marker t m s s' :
  m <> [] -> apart m t = true -> clear_left m t = true -> occurrences m t = 0 ->
  grown t s s' -> occurrences m s = 0 -> occurrences m s' = 0.
Proof.
  intros Hm Hap Hl Ht Hg. induction Hg as [s | c s s' Hg IH | s s' Hg IH];
    intros Hs.
  - exact Hs.
  - cbn [occurrences] in Hs |- *.
    destruct (starts_with m (c :: s)) eqn:E; [lia|].
    rewrite IH by lia.
    destruct (starts_with m (c :: s')) eqn:E'; [|reflexivity].
    rewrite (grown_starts_with t m (c :: s) (c :: s') Hap (grown_keep t c s s' Hg)
               [] m eq_refl Hm E') in E. discriminate.
  - generalize (occurrences_app_left m t [] s' Hl). simpl. intros ->.
    rewrite Ht, IH; [reflexivity | exact Hs].
Qed.

(** The loop of [re.sub] without [count], one round at a time. *)
Lemma sub_all_step p repl (s pre r : list N) m :
  search p s = Some (pre, m, r) -> whole m <> [] ->
  sub p repl s 0 = pre ++ expand repl m ++ sub p repl r 0.
Proof.
  intros Hs Hw. destruct (search_sound _ _ _ _ _ Hs) as (segs & _ & Heq & Hm).
  unfold sub at 1. cbn [sub_loop]. rewrite Hs.
  destruct (whole m) as [|c0 w0] eqn:E; [congruence|].
  do 2 f_equal. unfold sub. apply (sub_loop_fuel p repl (length r)); try lia.
  rewrite Heq, !length_app. rewrite Hm in E. cbn [whole] in E. rewrite E.
  simpl. lia.
Qed.

(** What [add_text_size_control] writes is what it read with copies of the
    snippet put in. *)
Lemma text_size_sub_grown : forall n (c : list N), length c <= n ->
  grown TextSize.TEXT_SIZE_CONTROL c
        (sub TextSize.pattern TextSize.replacement c 0).
Proof.
  induction n as [|n IH]; intros c Hn;
    (destruct (search TextSize.pattern c) as [[[pre m] r]|] eqn:E;
     [|rewrite (sub_none _ _ _ _ E); apply grown_same]).
  all: destruct (search_sound _ _ _ _ _ E) as (segs & Hok & Hc & Hm).
  all: cbn in Hok.
  all: inversion Hok as [|? w1 ? segs1 Hw1 Hok1]; subst.
  all: inversion Hok1 as [|? l1 ? segs2 Hl1 Hok2]; subst.
  all: inversion Hok2 as [|? w2 ? segs3 Hw2 Hok3]; subst.
  all: inversion Hok3 as [|? l2 ? segs4 Hl2 Hok4]; subst.
  all: inversion Hok4; subst; simpl in Hl1, Hl2; subst l1 l2.
  - exfalso. rewrite !length_app in Hn. cbn [concat] in Hn.
    rewrite !length_app in Hn.
    change (length (lit "</body>")) with 7 in Hn. lia.
  - rewrite (sub_all_step _ _ _ _ _ _ E).
    2:{ cbn. intros Hnil. apply (f_equal (@length N)) in Hnil.
        rewrite !length_app in Hnil.
        change (length (lit "</body>")) with 7 in Hnil. simpl in Hnil. lia. }
    assert (Hr : grown TextSize.TEXT_SIZE_CONTROL r
                   (sub TextSize.pattern TextSize.replacement r 0)).
    { apply IH. rewrite !length_app in Hn. cbn [concat] in Hn.
      rewrite !length_app in Hn.
      change (length (lit "</body>")) with 7 in Hn. lia. }
    revert Hr. generalize (sub TextSize.pattern TextSize.replacement r 0).
    intros out Hr.
    apply grown_app_keep. cbn. rewrite !app_nil_r, <- !app_assoc.
    apply grown_put. now do 4 apply grown_app_keep.
Qed.




End TextSizeGrowth.

(** ** The two patchers one after the other *)
Section Pipeline.
Import Re Sys.
#[local] Arguments lit : simpl never.

Lemma holds_anchor_found (c : list N) :
  holds_anchor c <-> search TextSize.pattern c <> None.
Proof. symmetry. apply anchor_found_iff. Qed.

(** X10.  On a page that holds an anchor and none of the markers, the
    Text-Size Patcher and then the Dark-Mode Patcher both rewrite the file;
    the result holds exactly one wrapper tag, one button, one wrapper-close
    marker and one declaration of the toggle function, and a further call of
    either patcher skips it. *)
Theorem both_patchers_in_order (w : world) (f : list (list N)) (c : list N) :
  files w !! f = Some c -> untouched c -> holds_anchor c ->
  exists w1 w2 c2,
    TextSize.add_text_size_control f w = Some (true, w1) /\
    DarkMode.add_dark_mode_toggle f w1 = Some (true, w2) /\
    files w2 !! f = Some c2 /\
    console w2 = console w ++
      [Status Check_mark f (lit "added text-size control");
       Status Check_mark f (lit "added dark mode toggle")] /\
    occurrences marker_wrapper c2 = 1 /\
    occurrences marker_button c2 = 1 /\
    occurrences marker_wrapper_close c2 = 1 /\
    occurrences function_decl c2 = 1 /\
    (exists w3, TextSize.add_text_size_control f w2 = Some (false, w3) /\
                files w3 = files w2) /\
    (exists w3, DarkMode.add_dark_mode_toggle f w2 = Some (false, w3) /\
                files w3 = files w2).
Proof.
  intros Hf (Hts & Hwr & Hbtn & Htog & Hclose) Hanchor.
  apply holds_anchor_found in Hanchor.
  set (c1 := sub TextSize.pattern TextSize.replacement c 0).
  assert (Hplan : TextSize.plan c =
            Outcome true (Some c1) Check_mark (lit "added text-size control"))
    by now apply text_size_plan_patched.
  destruct (text_size_output_holds_block c Hanchor) as (pre & g & post & Hblock).
  fold c1 in Hblock.
  pose proof (text_size_sub_grown (length c) c (le_n _)) as Hg. fold c1 in Hg.
  assert (Hzero : forall m, m <> [] ->
            apart m TextSize.TEXT_SIZE_CONTROL = true ->
            clear_left m TextSize.TEXT_SIZE_CONTROL = true ->
            occurrences m TextSize.TEXT_SIZE_CONTROL = 0 ->
            contains m c = false -> occurrences m c1 = 0).
  { intros m Hm Ha Hl Ht Hc.
    apply (grown_no_marker _ m c _ Hm Ha Hl Ht Hg). now apply occurrences_0. }
  pose proof (Hzero marker_wrapper ltac:(discriminate)
                ltac:(vm_compute; reflexivity) ltac:(vm_compute; reflexivity)
                ltac:(vm_compute; reflexivity) Hwr) as Z1.
  pose proof (Hzero marker_button ltac:(discriminate)
                ltac:(vm_compute; reflexivity) ltac:(vm_compute; reflexivity)
                ltac:(vm_compute; reflexivity) Hbtn) as Z2.
  pose proof (Hzero marker_toggle ltac:(discriminate)
                ltac:(vm_compute; reflexivity) ltac:(vm_compute; reflexivity)
                ltac:(vm_compute; reflexivity) Htog) as Z3.
  pose proof (Hzero marker_wrapper_close ltac:(discriminate)
                ltac:(vm_compute; reflexivity) ltac:(vm_compute; reflexivity)
                ltac:(vm_compute; reflexivity) Hclose) as Z4.
  assert (Hfn : contains function_decl c = false).
  { destruct (contains function_decl c) eqn:E; [|reflexivity].
    apply contains_iff in E as (x & y & ->).
    rewrite (contains_app_r marker_toggle x) in Htog; [discriminate|].
    apply contains_app_l. vm_compute. reflexivity. }
  pose proof (Hzero function_decl ltac:(discriminate)
                ltac:(vm_compute; reflexivity) ltac:(vm_compute; reflexivity)
                ltac:(vm_compute; reflexivity) Hfn) as Z5.
  assert (C1 : contains marker_wrapper c1 = false)
    by (rewrite contains_occurrences, Z1 by discriminate; reflexivity).
  assert (C3 : contains marker_toggle c1 = false)
    by (rewrite contains_occurrences, Z3 by discriminate; reflexivity).
  destruct (holds_widget_block_contains c1 pre g post Hblock) as [Hwid _].
  pose proof (dark_plan_wrap c1 C3 Hwid C1) as Hplan1.
  set (c2 := add_script (wrap c1)) in *.
  pose proof (state_c_count marker_wrapper 1 0 c1 pre g post Hblock
                ltac:(vm_compute; reflexivity) ltac:(vm_compute; reflexivity)
                ltac:(vm_compute; reflexivity)) as E1.
  pose proof (state_c_count marker_button 1 0 c1 pre g post Hblock
                ltac:(vm_compute; reflexivity) ltac:(vm_compute; reflexivity)
                ltac:(vm_compute; reflexivity)) as E2.
  pose proof (state_c_count marker_toggle 1 3 c1 pre g post Hblock
                ltac:(vm_compute; reflexivity) ltac:(vm_compute; reflexivity)
                ltac:(vm_compute; reflexivity)) as E3.
  pose proof (state_c_count marker_wrapper_close 0 1 c1 pre g post Hblock
                ltac:(vm_compute; reflexivity) ltac:(vm_compute; reflexivity)
                ltac:(vm_compute; reflexivity)) as E4.
  pose proof (state_c_count function_decl 0 1 c1 pre g post Hblock
                ltac:(vm_compute; reflexivity) ltac:(vm_compute; reflexivity)
                ltac:(vm_compute; reflexivity)) as E5.
  pose proof (state_c_count marker_text_size 0 0 c1 pre g post Hblock
                ltac:(vm_compute; reflexivity) ltac:(vm_compute; reflexivity)
                ltac:(vm_compute; reflexivity)) as E6.
  fold c2 in E1, E2, E3, E4, E5, E6.
  assert (T2 : contains marker_toggle c2 = true).
  { rewrite contains_occurrences by discriminate. rewrite E3, Z3. reflexivity. }
  assert (M2 : contains marker_text_size c2 = true).
  { pose proof (occurrences_pos marker_text_size c1 ltac:(discriminate)
                  (text_size_sub_has_marker c Hanchor)) as Hpos.
    rewrite contains_occurrences by discriminate.
    destruct (occurrences marker_text_size c2) eqn:E; [lia | reflexivity]. }
  set (w1 := perform f (TextSize.plan c) w).
  assert (Hf1 : files w1 !! f = Some c1).
  { unfold w1. rewrite (files_perform f _ w c Hf), Hplan. reflexivity. }
  set (w2 := perform f (DarkMode.plan c1) w1).
  assert (Hf2 : files w2 !! f = Some c2).
  { unfold w2. rewrite (files_perform f _ w1 c1 Hf1), Hplan1. reflexivity. }
  exists w1, w2, c2.
  split; [rewrite (add_text_size_control_run f w c Hf); unfold w1;
          now rewrite Hplan|].
  split; [rewrite (add_dark_mode_toggle_run f w1 c1 Hf1); unfold w2;
          now rewrite Hplan1|].
  split; [exact Hf2|]. split.
  { unfold w2, w1, perform. rewrite Hplan, Hplan1. cbn [console mark message].
    now rewrite <- app_assoc. }
  split; [lia|]. split; [lia|]. split; [lia|]. split; [lia|]. split.
  - exists (perform f (TextSize.plan c2) w2).
    rewrite (add_text_size_control_run f w2 c2 Hf2).
    now rewrite (text_size_plan_marked c2 M2).
  - exists (perform f (DarkMode.plan c2) w2).
    rewrite (add_dark_mode_toggle_run f w2 c2 Hf2).
    now rewrite (dark_plan_toggled c2 T2).
Qed.

Lemma both_patchers_in_order_witness :
  let f := [lit "index.html"] in
  let c := lit "<html><body><h1>Docs</h1>
<script>lucide.createIcons();</script>
</body></html>" in
  let w := World {[ f := c ]} [] in
  (files w !! f = Some c /\ untouched c /\ holds_anchor c) /\
  exists w1 w2 c2,
    TextSize.add_text_size_control f w = Some (true, w1) /\
    DarkMode.add_dark_mode_toggle f w1 = Some (true, w2) /\
    files w2 !! f = Some c2 /\
    console w2 = console w ++
      [Status Check_mark f (lit "added text-size control");
       Status Check_mark f (lit "added dark mode toggle")] /\
    occurrences marker_wrapper c2 = 1 /\
    occurrences marker_button c2 = 1 /\
    occurrences marker_wrapper_close c2 = 1 /\
    occurrences function_decl c2 = 1 /\
    (exists w3, TextSize.add_text_size_control f w2 = Some (false, w3) /\
                files w3 = files w2) /\
    (exists w3, DarkMode.add_dark_mode_toggle f w2 = Some (false, w3) /\
                files w3 = files w2).
Proof.
  intros f c w.
  assert (Hu : untouched c) by (repeat split; vm_compute; reflexivity).
  assert (Ha : holds_anchor c).
  { apply holds_anchor_found. vm_compute. discriminate. }
  split; [split; [reflexivity | split; assumption]|].
  apply (both_patchers_in_order w f c); [reflexivity | exact Hu | exact Ha].
Defined.

End Pipeline.

(** ** The Text-Size Patcher on a page with one icon script *)
Section SingleAnchor.
Import Re Sys.
#[local] Arguments lit : simpl never.











End SingleAnchor.

(** ** The widget script on a page *)
Section WidgetPageFacts.
#[local] Open Scope string_scope.
Import WidgetPage.

Lemma map_false_repeat (bs : list bool) :
  map (fun _ : bool => false) bs = repeat false (length bs).
Proof. induction bs as [|b bs IH]; [reflexivity | simpl; now rewrite IH]. Qed.

Lemma nth_insert_other (l : list bool) (i j : nat) (x d : bool) :
  i <> j -> nth j (<[i := x]> l) d = nth j l d.
Proof.
  revert i j. induction l as [|b l IH]; intros i j Hij; [reflexivity|].
  destruct i as [|i], j as [|j]; try reflexivity; [congruence|].
  simpl. apply IH. congruence.
Qed.

Lemma markup_buttons_length k : length (markup_buttons k) = 3 * k.
Proof.
  unfold markup_buttons. induction k as [|k IH]; [reflexivity|].
  cbn [repeat concat]. rewrite length_app, IH. simpl. lia.
Qed.

(** From a value of its own the script stores one of the three sizes. *)
Lemma adjust_own_value (action : string) (stored : option string) :
  own_value stored -> In (Widget.adjustTextSize action stored) Widget.sizes.
Proof.
  intros Hv. unfold Widget.adjustTextSize.
  assert (Hc : In (Widget.current_size stored) Widget.sizes).
  { destruct stored as [s|]; [|simpl; auto].
    destruct Hv as [->|Hs]; [simpl; auto|].
    simpl in Hs. destruct Hs as [<-|[<-|[<-|[]]]]; simpl; auto. }
  revert Hc. generalize (Widget.current_size stored). intros s Hs.
  simpl in Hs.
  destruct (action =? "decrease"), (action =? "increase"), (action =? "reset");
    destruct Hs as [<-|[<-|[<-|[]]]]; simpl; auto.
Qed.

(** [applyTextSize] and [updateButtons] for one of the three sizes on a
    page with three buttons or more. *)
Lemma update_shows (s : string) (v : option string) (f : option string)
    (bs : list bool) :
  In s Widget.sizes -> 3 <= length bs ->
  exists p, updateButtons s (applyTextSize s (Page v f bs)) = Done p /\
            textSize p = v /\ shows s (length bs) p.
Proof.
  intros Hs Hn. unfold updateButtons, applyTextSize, shows.
  cbv zeta. cbn [textSize fontSize buttons].
  rewrite map_false_repeat, repeat_length.
  assert (Hlt : forall i, i < 3 -> (i <? length bs)%nat = true)
    by (intros i Hi; apply Nat.ltb_lt; lia).
  simpl in Hs. destruct Hs as [<-|[<-|[<-|[]]]].
  - change (Widget.active_button "small") with (Some 0).
    change (Widget.fontSizes "small") with (Some "15px"). cbv beta iota.
    rewrite (Hlt 0) by lia. eexists. split; [reflexivity|]. split; [reflexivity|].
    exists 0, "15px". repeat split.
  - change (Widget.active_button "normal") with (Some 1).
    change (Widget.fontSizes "normal") with (Some "16px"). cbv beta iota.
    rewrite (Hlt 1) by lia. eexists. split; [reflexivity|]. split; [reflexivity|].
    exists 1, "16px". repeat split.
  - change (Widget.active_button "large") with (Some 2).
    change (Widget.fontSizes "large") with (Some "18px"). cbv beta iota.
    rewrite (Hlt 2) by lia. eexists. split; [reflexivity|]. split; [reflexivity|].
    exists 2, "18px". repeat split.
Qed.

Lemma shows_length s n p : shows s n p -> length (buttons p) = n.
Proof.
  intros (i & px & _ & _ & _ & ->). now rewrite length_insert, repeat_length.
Qed.

Lemma adjust_shows (action : string) (p : page) :
  own_value (textSize p) -> 3 <= length (buttons p) ->
  exists p', adjustTextSize action p = Done p' /\
    textSize p' = Some (Widget.adjustTextSize action (textSize p)) /\
    shows (Widget.adjustTextSize action (textSize p)) (length (buttons p)) p'.
Proof.
  intros Hv Hn. destruct p as [v f bs]. cbn [textSize buttons] in *.
  unfold adjustTextSize, setItem. cbn [textSize fontSize buttons].
  apply (update_shows _ (Some _) f bs); [now apply adjust_own_value | exact Hn].
Qed.

Lemma init_shows (k : nat) (stored : option string) :
  own_value stored -> 1 <= k ->
  exists p, init (load k stored) = Done p /\ textSize p = stored /\
            shows (Widget.current_size stored) (3 * k) p.
Proof.
  intros Hv Hk. unfold init, load. cbn [textSize].
  rewrite <- (markup_buttons_length k).
  apply update_shows; [|rewrite markup_buttons_length; lia].
  destruct stored as [s|]; [|simpl; auto].
  destruct Hv as [->|Hs]; [simpl; auto|].
  simpl in Hs. destruct Hs as [<-|[<-|[<-|[]]]]; simpl; auto.
Qed.

Lemma clicks_show (actions : list string) :
  forall (action : string) (p : page),
  own_value (textSize p) -> 3 <= length (buttons p) ->
  exists p' s,
    clicks (action :: actions) p = Done p' /\
    textSize p' = Some s /\
    stored_after (action :: actions) (textSize p) = Some s /\
    shows s (length (buttons p)) p'.
Proof.
  induction actions as [|a' actions IH]; intros action p Hv Hn.
  - destruct (adjust_shows action p Hv Hn) as (p' & Hrun & Hs & Hshow).
    exists p', (Widget.adjustTextSize action (textSize p)).
    cbn [clicks]. rewrite Hrun. auto.
  - destruct (adjust_shows action p Hv Hn) as (p1 & Hrun & Hs & Hshow).
    assert (Hv1 : own_value (textSize p1)).
    { rewrite Hs. right. now apply adjust_own_value. }
    assert (Hn1 : length (buttons p1) = length (buttons p))
      by exact (shows_length _ _ _ Hshow).
    destruct (IH a' p1 Hv1 ltac:(lia)) as (p' & s & Hrun' & Hs' & Hst & Hshow').
    exists p', s. split; [|split; [exact Hs'|split]].
    + change (clicks (action :: a' :: actions) p)
        with (match adjustTextSize action p with
              | Done q => clicks (a' :: actions) q
              | TypeError q => TypeError q
              end).
      now rewrite Hrun.
    + change (stored_after (action :: a' :: actions) (textSize p))
        with (stored_after (a' :: actions)
                (Some (Widget.adjustTextSize action (textSize p)))).
      now rewrite <- Hs.
    + now rewrite <- Hn1.
Qed.

(** X12.  On a page with three buttons or more whose item is not set, empty
    or one of the three sizes, no run of clicks raises an error, whatever the
    actions; after it the item holds one of the three sizes, the font size
    is the one of that size, and exactly one button is active: the one at
    the place the size has in [sizes].  Buttons after the third are never
    active. *)
Theorem widget_shows_stored_size (action : string) (actions : list string)
    (p : page) :
  own_value (textSize p) -> 3 <= length (buttons p) ->
  exists p' s,
    clicks (action :: actions) p = Done p' /\
    textSize p' = Some s /\
    stored_after (action :: actions) (textSize p) = Some s /\
    In s Widget.sizes /\
    shows s (length (buttons p)) p' /\
    (forall j, 3 <= j -> nth j (buttons p') false = false).
Proof.
  intros Hv Hn.
  destruct (clicks_show actions action p Hv Hn) as (p' & s & Hrun & Hs & Hst & Hshow).
  exists p', s. do 3 (split; [assumption|]).
  destruct Hshow as (i & px & Hi & Hpx & Hf & Hb).
  split; [now apply nth_error_In with i|].
  split; [now exists i, px|].
  intros j Hj. rewrite Hb.
  assert (Hi3 : i < length Widget.sizes) by (apply nth_error_Some; congruence).
  simpl in Hi3. rewrite nth_insert_other by lia. apply nth_repeat.
Qed.

Lemma widget_shows_stored_size_witness :
  let p := load 2 None in
  (own_value (textSize p) /\ 3 <= length (buttons p)) /\
  exists p' s,
    clicks ["increase"; "increase"; "decrease"] p = Done p' /\
    textSize p' = Some s /\
    stored_after ["increase"; "increase"; "decrease"] (textSize p) = Some s /\
    In s Widget.sizes /\
    shows s (length (buttons p)) p' /\
    (forall j, 3 <= j -> nth j (buttons p') false = false).
Proof.
  intros p. split; [split; [exact I | simpl; lia]|].
  apply (widget_shows_stored_size "increase" ["increase"; "decrease"] p);
    [exact I | simpl; lia].
Defined.

(** X13.  A size chosen by a click is the size shown after the page is
    loaded again: on a page with [k] copies of the snippet, the script on
    load leaves the item as it is and shows the size the click stored. *)
Theorem widget_size_survives_reload (action : string) (p : page) (k : nat) :
  own_value (textSize p) -> 3 <= length (buttons p) -> 1 <= k ->
  exists p' p'' s,
    adjustTextSize action p = Done p' /\
    init (load k (textSize p')) = Done p'' /\
    textSize p' = Some s /\ textSize p'' = Some s /\
    shows s (length (buttons p)) p' /\ shows s (3 * k) p''.
Proof.
  intros Hv Hn Hk.
  destruct (adjust_shows action p Hv Hn) as (p' & Hrun & Hs & Hshow).
  assert (Hv' : own_value (textSize p'))
    by (rewrite Hs; right; now apply adjust_own_value).
  destruct (init_shows k (textSize p') Hv' Hk) as (p'' & Hinit & Hs'' & Hshow'').
  exists p', p'', (Widget.adjustTextSize action (textSize p)).
  split; [exact Hrun|]. split; [exact Hinit|]. split; [exact Hs|].
  split; [now rewrite Hs'', Hs|]. split; [exact Hshow|].
  rewrite Hs in Hshow''.
  assert (Hcur : Widget.current_size
                   (Some (Widget.adjustTextSize action (textSize p)))
                 = Widget.adjustTextSize action (textSize p)).
  { pose proof (adjust_own_value action (textSize p) Hv) as Hin.
    simpl in Hin. destruct Hin as [<-|[<-|[<-|[]]]]; reflexivity. }
  now rewrite Hcur in Hshow''.
Qed.

Lemma widget_size_survives_reload_witness :
  let p := load 1 (Some "normal") in
  (own_value (textSize p) /\ 3 <= length (buttons p) /\ 1 <= 2) /\
  exists p' p'' s,
    adjustTextSize "increase" p = Done p' /\
    init (load 2 (textSize p')) = Done p'' /\
    textSize p' = Some s /\ textSize p'' = Some s /\
    shows s (length (buttons p)) p' /\ shows s (3 * 2) p''.
Proof.
  intros p. split; [split; [right; simpl; auto | split; simpl; lia]|].
  apply (widget_size_survives_reload "increase" p 2);
    [right; simpl; auto | simpl; lia | lia].
Defined.

(** X14.  An item that holds a text other than the three sizes is never
    repaired by the script on load nor by an action other than [reset]:
    the item stays as it is and no button is active. *)
Theorem widget_foreign_value_stays (v action : string) (f : option string)
    (bs : list bool) :
  foreign v -> action <> "reset" ->
  (exists f', adjustTextSize action (Page (Some v) f bs)
              = Done (Page (Some v) f' (repeat false (length bs)))) /\
  (exists f', init (Page (Some v) f bs)
              = Done (Page (Some v) f' (repeat false (length bs)))).
Proof.
  intros [Hne Hnot] Ha.
  assert (Hsmall : (v =? "small") = false)
    by (apply String.eqb_neq; intros ->; apply Hnot; simpl; auto).
  assert (Hnormal : (v =? "normal") = false)
    by (apply String.eqb_neq; intros ->; apply Hnot; simpl; auto).
  assert (Hlarge : (v =? "large") = false)
    by (apply String.eqb_neq; intros ->; apply Hnot; simpl; auto).
  assert (Hempty : (v =? "") = false) by now apply String.eqb_neq.
  assert (Hcur : Widget.current_size (Some v) = v)
    by (unfold Widget.current_size; now rewrite Hempty).
  assert (Hadj : Widget.adjustTextSize action (Some v) = v).
  { unfold Widget.adjustTextSize. rewrite Hcur, Hsmall, Hnormal, Hlarge.
    apply String.eqb_neq in Ha. rewrite Ha.
    now destruct (action =? "decrease"), (action =? "increase"). }
  assert (Hact : Widget.active_button v = None)
    by (unfold Widget.active_button; now rewrite Hsmall, Hnormal, Hlarge).
  split.
  - exists (Widget.fontSizes v). unfold adjustTextSize, setItem.
    cbn [textSize fontSize buttons]. rewrite Hadj.
    unfold updateButtons, applyTextSize. cbn [textSize fontSize buttons].
    now rewrite Hact, map_false_repeat.
  - exists (Widget.fontSizes v). unfold init. cbn [textSize]. rewrite Hcur.
    unfold updateButtons, applyTextSize. cbn [textSize fontSize buttons].
    now rewrite Hact, map_false_repeat.
Qed.

Lemma widget_foreign_value_stays_witness :
  (foreign "huge" /\ "increase" <> "reset") /\
  (exists f', adjustTextSize "increase" (Page (Some "huge") None [false; true; false])
              = Done (Page (Some "huge") f' (repeat false 3))) /\
  (exists f', init (Page (Some "huge") None [false; true; false])
              = Done (Page (Some "huge") f' (repeat false 3))).
Proof.
  assert (H : foreign "huge" /\ "increase" <> "reset").
  { split; [split; [discriminate|]|discriminate].
    simpl. intros [H|[H|[H|[]]]]; discriminate. }
  split; [exact H|].
  exact (widget_foreign_value_stays "huge" "increase" None [false; true; false]
           (proj1 H) (proj2 H)).
Defined.

End WidgetPageFacts.

(** ** The theme script on a page *)
Section ThemeFacts.
#[local] Open Scope string_scope.
Import Theme.

Lemma toggle_flips (p : page) : isDark (toggleTheme p) = negb (isDark p).
Proof. unfold toggleTheme. now destruct (isDark p). Qed.

Lemma toggles_parity (n : nat) (p : page) :
  isDark (Nat.iter n toggleTheme p) = xorb (Nat.odd n) (isDark p).
Proof.
  induction n as [|n IH]; [reflexivity|].
  rewrite Nat.odd_succ, <- Nat.negb_odd.
  change (Nat.iter (S n) toggleTheme p)
    with (toggleTheme (Nat.iter n toggleTheme p)).
  rewrite toggle_flips, IH. now destruct (Nat.odd n), (isDark p).
Qed.

Lemma toggled_theme (n : nat) (p : page) :
  Nat.iter (S n) toggleTheme p =
  let t := if xorb (Nat.odd (S n)) (isDark p) then "dark" else "light" in
  Page (Some t) (Some t).
Proof.
  change (Nat.iter (S n) toggleTheme p)
    with (toggleTheme (Nat.iter n toggleTheme p)).
  unfold toggleTheme at 1. rewrite toggles_parity.
  rewrite Nat.odd_succ, <- Nat.negb_odd.
  now destruct (Nat.odd n), (isDark p).
Qed.

(** X15.  After [n] calls of [toggleTheme] the page is dark when it was
    dark and [n] is even, or was not dark and [n] is odd; from the first
    call on, the attribute and the stored item hold the same text, [dark] or
    [light]. *)
Theorem toggle_theme_parity (n : nat) (p : page) :
  isDark (Nat.iter n toggleTheme p) = xorb (Nat.odd n) (isDark p) /\
  let t := if xorb (Nat.odd (S n)) (isDark p) then "dark" else "light" in
  data_theme (Nat.iter (S n) toggleTheme p) = Some t /\
  theme (Nat.iter (S n) toggleTheme p) = Some t.
Proof.
  split; [apply toggles_parity|]. rewrite toggled_theme. now split.
Qed.

(** X16.  On a page whose markup does not set the attribute to [dark]: with
    no item stored (or an empty one), the script on load makes the page dark
    exactly when the system prefers dark; once [toggleTheme] has been
    called, the page loaded again is dark exactly when it was dark after the
    last call, whatever the system prefers; and loading never changes the
    item. *)
Theorem theme_choice_survives_reload (markup : option string) (n : nat)
    (p : page) (prefers_dark : bool) :
  markup <> Some "dark" ->
  let chosen := Nat.iter (S n) toggleTheme p in
  isDark (init prefers_dark (Page markup (theme chosen))) = isDark chosen /\
  isDark (init prefers_dark (Page markup None)) = prefers_dark /\
  isDark (init prefers_dark (Page markup (Some ""))) = prefers_dark /\
  (forall stored, theme (init prefers_dark (Page markup stored)) = stored).
Proof.
  intros Hm chosen.
  assert (Hmark : isDark (Page markup None) = false).
  { unfold isDark. cbn [data_theme]. destruct markup as [a|]; [|reflexivity].
    apply String.eqb_neq. congruence. }
  assert (Hmark' : forall s, isDark (Page markup s) = false) by (intros s; exact Hmark).
  split; [|split; [|split]].
  - unfold chosen. rewrite toggled_theme. cbv zeta.
    destruct (xorb (Nat.odd (S n)) (isDark p)); unfold init; cbn [theme];
      simpl; [reflexivity | apply Hmark'].
  - unfold init. cbn [theme falsy]. simpl orb.
    destruct prefers_dark; [reflexivity | exact Hmark].
  - unfold init. cbn [theme falsy]. simpl.
    destruct prefers_dark; [reflexivity | apply Hmark'].
  - intros stored. unfold init. cbn [theme].
    now destruct (_ || _).
Qed.

Lemma theme_choice_survives_reload_witness :
  let chosen := Nat.iter (S 1) toggleTheme (Page None None) in
  (None : option string) <> Some "dark" /\
  (isDark (init true (Page None (theme chosen))) = isDark chosen /\
   isDark (init true (Page None None)) = true /\
   isDark (init true (Page None (Some ""))) = true /\
   (forall stored, theme (init true (Page None stored)) = stored)).
Proof.
  intros chosen. split; [discriminate|].
  apply (theme_choice_survives_reload None 1 (Page None None) true). discriminate.
Defined.

End ThemeFacts.
